(** * finance_flow: the transaction store and its aggregations

    A shallow embedding of [main.py]: the [CSV] class (ledger file,
    date format, range query) and the aggregations computed in
    [create_visualizations] and [main].

    Conventions of the embedding.
    - A [string] stands for a text of ASCII characters; the date
      pattern is [CSV.FORMAT], ["%d-%m-%Y"].  A statement about texts
      the program did not write itself says so with [isascii].
    - A [datetime] at midnight is a [Date] record.  A [datetime64[ns]]
      column stores [ns_value] for it, which [to_datetime] keeps within
      [int64]; [ts_value] is the same count in days.
    - Amounts are exact rationals ([Q]) standing for floats; a missing
      float ([NaN]) is [None] where pandas can produce one.  An
      equality between sums is stated only where both sides add the
      same amounts in the same order.
    - A raised exception is the [Raise] branch of [result]; [exn] lists
      the exceptions the modelled statements raise.
    - A view is modelled up to the data it hands to the plotting calls;
      the calls themselves are not. *)

From Stdlib Require Import ZArith QArith List String Ascii Bool Lia Sorted.
Import ListNotations.

Open Scope Z_scope.

(* ================================================================= *)
(** ** Exceptions *)

Inductive exn : Type :=
| FileNotFoundError
| ValueError
| OutOfBoundsDatetime
| ZeroDivisionError.

Inductive result (A : Type) : Type :=
| Return (a : A)
| Raise (e : exn).

Arguments Return {A} a.
Arguments Raise {A} e.

Definition bind {A B : Type} (m : result A) (k : A -> result B) : result B :=
  match m with
  | Return a => k a
  | Raise e => Raise e
  end.

Notation "x <- m ;; k" := (bind m (fun x => k))
  (at level 61, m at next level, right associativity).

(* ================================================================= *)
(** ** The proleptic Gregorian calendar of [datetime] *)

Record Date : Type := mkDate { year : Z; month : Z; day : Z }.

Definition MINYEAR : Z := 1.
Definition MAXYEAR : Z := 9999.

Definition is_leap (y : Z) : bool :=
  (y mod 4 =? 0) && (negb (y mod 100 =? 0) || (y mod 400 =? 0)).

Definition DAYS_IN_MONTH (m : Z) : Z :=
  match m with
  | 1 => 31 | 2 => 28 | 3 => 31 | 4 => 30 | 5 => 31 | 6 => 30
  | 7 => 31 | 8 => 31 | 9 => 30 | 10 => 31 | 11 => 30 | 12 => 31
  | _ => -1
  end.

Definition DAYS_BEFORE_MONTH (m : Z) : Z :=
  match m with
  | 1 => 0 | 2 => 31 | 3 => 59 | 4 => 90 | 5 => 120 | 6 => 151
  | 7 => 181 | 8 => 212 | 9 => 243 | 10 => 273 | 11 => 304 | 12 => 334
  | _ => -1
  end.

Definition days_before_year (y : Z) : Z :=
  let y1 := y - 1 in
  y1 * 365 + y1 / 4 - y1 / 100 + y1 / 400.

Definition days_in_month (y m : Z) : Z :=
  if (m =? 2) && is_leap y then 29 else DAYS_IN_MONTH m.

Definition days_before_month (y m : Z) : Z :=
  DAYS_BEFORE_MONTH m + (if (2 <? m) && is_leap y then 1 else 0).

Definition ymd2ord (y m d : Z) : Z :=
  days_before_year y + days_before_month y m + d.

Definition toordinal (d : Date) : Z := ymd2ord (year d) (month d) (day d).

(** The checks of the [date] constructor; a failure is a [ValueError]. *)
Definition check_date_fields (y m d : Z) : bool :=
  (MINYEAR <=? y) && (y <=? MAXYEAR) &&
  (1 <=? m) && (m <=? 12) &&
  (1 <=? d) && (d <=? days_in_month y m).

Definition valid_date (d : Date) : Prop :=
  check_date_fields (year d) (month d) (day d) = true.

(** Calendar order: year, then month, then day. *)
Definition date_compare (a b : Date) : comparison :=
  match year a ?= year b with
  | Eq => match month a ?= month b with
          | Eq => day a ?= day b
          | c => c
          end
  | c => c
  end.

Definition date_leb (a b : Date) : bool :=
  match date_compare a b with Gt => false | _ => true end.

Definition date_ltb (a b : Date) : bool :=
  match date_compare a b with Lt => true | _ => false end.

Definition date_eqb (a b : Date) : bool :=
  (year a =? year b) && (month a =? month b) && (day a =? day b).

(** The value of a midnight timestamp, counted in days since
    1970-01-01; the order of these counts is the order of the stored
    nanoseconds. *)
Definition EPOCH_ORDINAL : Z := 719163.

Definition ts_value (d : Date) : Z := toordinal d - EPOCH_ORDINAL.

(** The integer a [datetime64[ns]] column stores for a midnight
    timestamp: nanoseconds since 1970-01-01, an [int64] whose least
    value stands for [NaT]. *)
Definition NS_PER_DAY : Z := 86400000000000.

Definition ns_value (d : Date) : Z := ts_value d * NS_PER_DAY.

Definition in_ns_bounds (d : Date) : bool :=
  (- 2 ^ 63 <? ns_value d) && (ns_value d <? 2 ^ 63).

(** One [Day] offset added to a date. *)
Definition next_day (d : Date) : Date :=
  if day d <? days_in_month (year d) (month d)
  then mkDate (year d) (month d) (day d + 1)
  else if month d <? 12
       then mkDate (year d) (month d + 1) 1
       else mkDate (year d + 1) 1 1.

(** Months are counted from year 0 to step through them. *)
Definition month_index (d : Date) : Z := year d * 12 + (month d - 1).

Definition month_end_of_index (i : Z) : Date :=
  let y := i / 12 in
  let m := i mod 12 + 1 in
  mkDate y m (days_in_month y m).

Definition month_end (d : Date) : Date :=
  mkDate (year d) (month d) (days_in_month (year d) (month d)).

Definition same_month (a b : Date) : bool :=
  (year a =? year b) && (month a =? month b).

(* ================================================================= *)
(** ** [CSV.FORMAT]: [strptime] and [strftime] for ["%d-%m-%Y"] *)

Open Scope string_scope.

(** The fragment of regular expressions the directives [%d], [%m] and
    [%Y] expand to. *)
Inductive re : Type :=
| Chr (c : ascii)
| Rng (lo hi : ascii)
| Cat (r1 r2 : re)
| Alt (r1 r2 : re).

Definition in_range (lo hi c : ascii) : bool :=
  ((N_of_ascii lo <=? N_of_ascii c) && (N_of_ascii c <=? N_of_ascii hi))%N.

(** Every way [r] matches a prefix of [s], as (matched text, rest), in
    the order a backtracking matcher tries them. *)
Fixpoint re_match (r : re) (s : string) : list (string * string) :=
  match r with
  | Chr c =>
      match s with
      | String a t => if Ascii.eqb a c then [(String a "", t)] else []
      | "" => []
      end
  | Rng lo hi =>
      match s with
      | String a t => if in_range lo hi a then [(String a "", t)] else []
      | "" => []
      end
  | Cat r1 r2 =>
      flat_map (fun p1 =>
                  map (fun p2 => (fst p1 ++ fst p2, snd p2))
                      (re_match r2 (snd p1)))
               (re_match r1 s)
  | Alt r1 r2 => re_match r1 s ++ re_match r2 s
  end.

Definition re_digit : re := Rng "0" "9".

(** [%d]: [3[0-1]|[1-2]\d|0[1-9]|[1-9]| [1-9]] *)
Definition re_d : re :=
  Alt (Cat (Chr "3") (Rng "0" "1"))
 (Alt (Cat (Rng "1" "2") re_digit)
 (Alt (Cat (Chr "0") (Rng "1" "9"))
 (Alt (Rng "1" "9")
      (Cat (Chr " ") (Rng "1" "9"))))).

(** [%m]: [1[0-2]|0[1-9]|[1-9]] *)
Definition re_m : re :=
  Alt (Cat (Chr "1") (Rng "0" "2"))
 (Alt (Cat (Chr "0") (Rng "1" "9"))
      (Rng "1" "9")).

(** [%Y]: [\d\d\d\d] *)
Definition re_Y : re := Cat re_digit (Cat re_digit (Cat re_digit re_digit)).

(** The groups [d], [m], [Y] of the first match of the pattern at the
    start of [s], and the text left after it. *)
Definition format_regex_match (s : string)
  : option (string * string * string * string) :=
  hd_error
    (flat_map (fun pd =>
     flat_map (fun s1 =>
     flat_map (fun pm =>
     flat_map (fun s2 =>
          map (fun pY => (fst pd, fst pm, fst pY, snd pY))
              (re_match re_Y (snd s2)))
       (re_match (Chr "-") (snd pm)))
       (re_match re_m (snd s1)))
       (re_match (Chr "-") (snd pd)))
       (re_match re_d s)).

Fixpoint lstrip (s : string) : string :=
  match s with
  | String " " t => lstrip t
  | _ => s
  end.

Fixpoint int_digits (acc : Z) (s : string) : Z :=
  match s with
  | "" => acc
  | String c t => int_digits (10 * acc + (Z.of_N (N_of_ascii c) - 48)) t
  end.

(** [int] on the text of a group: decimal digits after optional blanks. *)
Definition int (s : string) : Z := int_digits 0 (lstrip s).

(** [datetime.strptime(s, CSV.FORMAT)]; [None] is a [ValueError]. *)
Definition strptime (s : string) : option Date :=
  match format_regex_match s with
  | None => None
  | Some (d, m, Y, rest) =>
      if negb (rest =? "") then None
      else
        let y := int Y in
        let mo := int m in
        let dd := int d in
        if check_date_fields y mo dd then Some (mkDate y mo dd) else None
  end.

Definition digit (n : Z) : ascii := ascii_of_N (Z.to_N (48 + n mod 10)).

Definition pad2 (n : Z) : string :=
  String (digit (n / 10)) (String (digit n) "").

Definition pad4 (n : Z) : string :=
  String (digit (n / 1000)) (String (digit (n / 100)) (pad2 n)).

(** [d.strftime(CSV.FORMAT)]: day and month on two digits, the year on
    four, as the library documents [%Y]. *)
Definition strftime (d : Date) : string :=
  pad2 (day d) ++ "-" ++ pad2 (month d) ++ "-" ++ pad4 (year d).

(** [%Y] as a C library that does not pad it writes the year: its
    decimal digits, fewer than four below 1000. *)
Definition year_unpadded (y : Z) : string :=
  if (y <? 10)%Z then String (digit y) ""
  else if (y <? 100)%Z then pad2 y
  else if (y <? 1000)%Z then String (digit (y / 100)) (pad2 y)
  else pad4 y.

Definition strftime_unpadded (d : Date) : string :=
  pad2 (day d) ++ "-" ++ pad2 (month d) ++ "-" ++ year_unpadded (year d).

(** [s.isascii()] *)
Fixpoint isascii (s : string) : bool :=
  match s with
  | "" => true
  | String c t => (N_of_ascii c <? 128)%N && isascii t
  end.

Close Scope string_scope.

(* ================================================================= *)
(** ** The ledger file and the frame read from it *)

(** One line of [finance_data.csv] below its header, as [add_entry]
    writes it: a date text, a number, and two texts. *)
Record csv_line : Type := mkLine {
  l_date : string;
  l_amount : Q;
  l_category : string;
  l_description : string
}.

(** [None]: the file does not exist. *)
Definition file_state : Type := option (list csv_line).

(** A row of the frame; [D] is the type of the [date] column, text
    after [read_csv] and a timestamp after [to_datetime].  [None] in a
    text column is a missing value. *)
Record Row (D : Type) : Type := mkRow {
  date : D;
  amount : Q;
  category : option string;
  description : option string
}.

Arguments mkRow {D} _ _ _ _.
Arguments date {D} _.
Arguments amount {D} _.
Arguments category {D} _.
Arguments description {D} _.

Definition DataFrame (D : Type) : Type := list (Row D).

Definition empty {A : Type} (l : list A) : bool :=
  match l with
  | [] => true
  | _ :: _ => false
  end.

(** The texts [read_csv] reads as a missing value by default. *)
Definition NA_VALUES : list string :=
  [""; "#N/A"; "#N/A N/A"; "#NA"; "-1.#IND"; "-1.#QNAN"; "-NaN"; "-nan";
   "1.#IND"; "1.#QNAN"; "<NA>"; "N/A"; "NA"; "NULL"; "NaN"; "None";
   "n/a"; "nan"; "null"]%string.

Definition na_filter (s : string) : option string :=
  if existsb (String.eqb s) NA_VALUES then None else Some s.

Definition read_line (l : csv_line) : Row string :=
  mkRow (l_date l) (l_amount l)
        (na_filter (l_category l)) (na_filter (l_description l)).

Definition read_csv (fs : file_state) : result (DataFrame string) :=
  match fs with
  | None => Raise FileNotFoundError
  | Some lines => Return (map read_line lines)
  end.

(** [CSV.initialize_csv]: writes the header-only file when reading
    raised [FileNotFoundError], and leaves an existing file alone. *)
Definition initialize_csv (fs : file_state) : file_state :=
  match read_csv fs with
  | Raise FileNotFoundError => Some []
  | _ => fs
  end.

(** [CSV.add_entry], on the lines of a file that exists ([main] runs
    [initialize_csv] first): one line appended, no field validated. *)
Definition add_entry (lines : list csv_line)
           (date : string) (amount : Q) (category description : string)
  : list csv_line :=
  lines ++ [mkLine date amount category description].

(** [pd.to_datetime(df["date"], format=CSV.FORMAT)], assigned back to
    the column.  The texts are parsed in frame order; the first that
    does not parse raises [ValueError], the first whose timestamp does
    not fit the nanosecond column raises [OutOfBoundsDatetime] (a
    [ValueError] to a handler). *)
Fixpoint to_datetime (df : DataFrame string) : result (DataFrame Date) :=
  match df with
  | [] => Return []
  | r :: t =>
      match strptime (date r) with
      | None => Raise ValueError
      | Some d =>
          if in_ns_bounds d then
            t' <- to_datetime t ;;
            Return (mkRow d (amount r) (category r) (description r) :: t')
          else Raise OutOfBoundsDatetime
      end
  end.

Definition strptime_exn (s : string) : result Date :=
  match strptime s with
  | Some d => Return d
  | None => Raise ValueError
  end.

(** [df.loc[mask]]: the rows whose mask entry is [True], in frame
    order. *)
Fixpoint loc {A : Type} (df : list A) (mask : list bool) : list A :=
  match df, mask with
  | r :: t, b :: m => if b then r :: loc t m else loc t m
  | _, _ => []
  end.

(** Element-wise [&] of two boolean columns. *)
Fixpoint mask_and (a b : list bool) : list bool :=
  match a, b with
  | x :: a', y :: b' => (x && y) :: mask_and a' b'
  | _, _ => []
  end.

(** [CSV.get_transactions] *)
Definition get_transactions (fs : file_state) (start_date end_date : string)
  : result (DataFrame Date) :=
  df <- read_csv fs ;;
  df <- to_datetime df ;;
  start_date <- strptime_exn start_date ;;
  end_date <- strptime_exn end_date ;;
  let mask :=
    mask_and (map (fun r => ts_value start_date <=? ts_value (date r)) df)
             (map (fun r => ts_value (date r) <=? ts_value end_date) df) in
  let filtered_df := loc df mask in
  Return filtered_df.

(* ================================================================= *)
(** ** Aggregations *)

(** [df["category"] == c], row by row; a missing category equals
    nothing. *)
Definition category_eq {D : Type} (c : string) (r : Row D) : bool :=
  match category r with
  | Some x => String.eqb x c
  | None => false
  end.

(** [df[df["category"] == c]] *)
Definition select_category {D : Type} (df : DataFrame D) (c : string)
  : DataFrame D :=
  loc df (map (category_eq c) df).

(** [Series.sum()] *)
Definition series_sum (l : list Q) : Q := fold_left Qplus l 0%Q.

(** [df[df["category"] == c]["amount"].sum()] *)
Definition total {D : Type} (df : DataFrame D) (c : string) : Q :=
  series_sum (map amount (select_category df c)).

(** The three metrics of [main]: income, expense, and their
    difference. *)
Definition summary_metrics {D : Type} (df : DataFrame D) : Q * Q * Q :=
  let total_income := total df "Income" in
  let total_expense := total df "Expense" in
  (total_income, total_expense, (total_income - total_expense)%Q).

Definition Qgtb (a b : Q) : bool := negb (Qle_bool a b).

(** [/] raises on a zero divisor. *)
Definition truediv (a b : Q) : result Q :=
  if Qeq_bool b 0 then Raise ZeroDivisionError else Return (a / b)%Q.

(** [savings_percent] of the "Income vs Expense" view. *)
Definition savings_percent (total_income total_expense : Q) : result Q :=
  let savings := (total_income - total_expense)%Q in
  if Qgtb total_income 0
  then q <- truediv savings total_income ;; Return (q * 100)%Q
  else Return 0%Q.

(** Adding one row to the groups of [groupby], kept sorted by key. *)
Fixpoint group_add (k : string) (v : Q) (g : list (string * Q))
  : list (string * Q) :=
  match g with
  | [] => [(k, v)]
  | (k', s) :: t =>
      match String.compare k k' with
      | Eq => (k', (s + v)%Q) :: t
      | Lt => (k, v) :: g
      | Gt => (k', s) :: group_add k v t
      end
  end.

(** [df.groupby("description")["amount"].sum().reset_index()]: rows
    with a missing key are dropped, groups come sorted by key. *)
Definition groupby_description_sum {D : Type} (df : DataFrame D)
  : list (string * Q) :=
  fold_left (fun g r =>
               match description r with
               | None => g
               | Some k => group_add k (amount r) g
               end)
            df [].

(** A series indexed by timestamps. *)
Definition Series : Type := list (Date * Q).

Fixpoint min_ts (d : Date) (l : list Date) : Date :=
  match l with
  | [] => d
  | x :: t => min_ts (if ts_value x <? ts_value d then x else d) t
  end.

Fixpoint max_ts (d : Date) (l : list Date) : Date :=
  match l with
  | [] => d
  | x :: t => max_ts (if ts_value d <? ts_value x then x else d) t
  end.

Fixpoint day_range (start : Date) (periods : nat) : list Date :=
  match periods with
  | O => []
  | S n => start :: day_range (next_day start) n
  end.

(** The sum of [amount] over the rows whose timestamp falls in a bin. *)
Definition bin_sum (in_bin : Date -> bool) (df : DataFrame Date) : Q :=
  series_sum (map amount (filter (fun r => in_bin (date r)) df)).

(** [resample("D").sum()["amount"]]: one bin per day from the first to
    the last timestamp, closed and labelled on the left. *)
Definition resample_D_sum (df : DataFrame Date) : Series :=
  match df with
  | [] => []
  | r :: t =>
      let first := min_ts (date r) (map date t) in
      let last := max_ts (date r) (map date t) in
      map (fun b =>
             (b, bin_sum (fun d => (ts_value b <=? ts_value d) &&
                                   (ts_value d <? ts_value b + 1)) df))
          (day_range first (Z.to_nat (ts_value last - ts_value first + 1)))
  end.

(** [resample("M").sum()["amount"]]: one bin per month from the month
    of the first to the month of the last timestamp, closed and
    labelled on the right, the month's last day. *)
Definition resample_M_sum (df : DataFrame Date) : Series :=
  match df with
  | [] => []
  | r :: t =>
      let first := min_ts (date r) (map date t) in
      let last := max_ts (date r) (map date t) in
      map (fun i =>
             let b := month_end_of_index i in
             let a := month_end_of_index (i - 1) in
             (b, bin_sum (fun d => (ts_value a <? ts_value d) &&
                                   (ts_value d <=? ts_value b)) df))
          (map (fun k => month_index first + Z.of_nat k)
               (seq 0 (Z.to_nat (month_index last - month_index first + 1))))
  end.

Inductive TimePeriod : Type := Daily | Monthly.

Definition resample_sum (p : TimePeriod) (df : DataFrame Date) : Series :=
  match p with
  | Daily => resample_D_sum df
  | Monthly => resample_M_sum df
  end.

(** A column handed to the [DataFrame] constructor: a series, or a
    scalar to repeat along the index. *)
Inductive column : Type :=
| ColSeries (s : Series)
| ColScalar (v : Q).

Fixpoint insert_ts (d : Date) (l : list Date) : list Date :=
  match l with
  | [] => [d]
  | x :: t =>
      if ts_value d <? ts_value x then d :: l
      else if ts_value d =? ts_value x then l
      else x :: insert_ts d t
  end.

(** The sorted union of two indexes. *)
Definition index_union (a b : list Date) : list Date :=
  fold_left (fun acc d => insert_ts d acc) (a ++ b) [].

Fixpoint series_get (s : Series) (d : Date) : option Q :=
  match s with
  | [] => None
  | (k, v) :: t => if ts_value k =? ts_value d then Some v else series_get t d
  end.

(** A column aligned on the frame's index; a label the series lacks
    gets [NaN]. *)
Definition reindex (idx : list Date) (c : column) : list (option Q) :=
  match c with
  | ColSeries s => map (series_get s) idx
  | ColScalar v => map (fun _ => Some v) idx
  end.

Record CombinedRow : Type := mkCombined {
  bucket : Date;
  Income : option Q;
  Expense : option Q;
  Net : option Q
}.

(** Float subtraction: [NaN] on either side gives [NaN]. *)
Definition nan_sub (a b : option Q) : option Q :=
  match a, b with
  | Some x, Some y => Some (x - y)%Q
  | _, _ => None
  end.

Fixpoint zip3 (idx : list Date) (a b : list (option Q)) : list CombinedRow :=
  match idx, a, b with
  | d :: idx', x :: a', y :: b' =>
      mkCombined d x y (nan_sub x y) :: zip3 idx' a' b'
  | _, _, _ => []
  end.

(** [pd.DataFrame({'Income': ..., 'Expense': ...})] followed by
    [combined_df['Net'] = combined_df['Income'] - combined_df['Expense']].
    Two scalars and no index raise [ValueError]. *)
Definition combined_frame (income expense : column)
  : result (list CombinedRow) :=
  idx <- match income, expense with
         | ColSeries s1, ColSeries s2 =>
             Return (index_union (map fst s1) (map fst s2))
         | ColSeries s1, ColScalar _ => Return (map fst s1)
         | ColScalar _, ColSeries s2 => Return (map fst s2)
         | ColScalar _, ColScalar _ => Raise ValueError
         end ;;
  Return (zip3 idx (reindex idx income) (reindex idx expense)).

(** The frame of the "Daily/Monthly Analysis" view. *)
Definition combined_df (income_ts expense_ts : Series)
  : result (list CombinedRow) :=
  combined_frame
    (if negb (empty income_ts) then ColSeries income_ts else ColScalar 0%Q)
    (if negb (empty expense_ts) then ColSeries expense_ts else ColScalar 0%Q).

Inductive VizType : Type :=
| TimeSeries
| CategoryBreakdown (category_filter : string)
| IncomeVsExpense
| DailyMonthlyAnalysis (time_period : TimePeriod).

(** What a view hands to the plotting calls. *)
Inductive Plotted : Type :=
| Warning
| TimeSeriesData (income_df expense_df : Series)
| BreakdownData (grouped_data : list (string * Q))
| TotalsData (total_income total_expense savings savings_percent : Q)
| CombinedData (combined : list CombinedRow).

(** [create_visualizations], with the view chosen in the select box as
    an argument.  The two conversions at its start leave the frame
    [get_transactions] returned as it is. *)
Definition create_visualizations (df : DataFrame Date) (viz_type : VizType)
  : result Plotted :=
  if empty df then Return Warning
  else
    match viz_type with
    | TimeSeries =>
        let income_df := resample_D_sum (select_category df "Income") in
        let expense_df := resample_D_sum (select_category df "Expense") in
        Return (TimeSeriesData income_df expense_df)
    | CategoryBreakdown category_filter =>
        let filtered_data := select_category df category_filter in
        if empty filtered_data then Return Warning
        else Return (BreakdownData (groupby_description_sum filtered_data))
    | IncomeVsExpense =>
        let total_income := total df "Income" in
        let total_expense := total df "Expense" in
        let savings := (total_income - total_expense)%Q in
        pct <- savings_percent total_income total_expense ;;
        Return (TotalsData total_income total_expense savings pct)
    | DailyMonthlyAnalysis time_period =>
        let income_ts := resample_sum time_period (select_category df "Income") in
        let expense_ts := resample_sum time_period (select_category df "Expense") in
        combined <- combined_df income_ts expense_ts ;;
        Return (CombinedData combined)
    end.


(* ================================================================= *)
(** ** [main] *)

(** The entry of the sidebar menu, with what its widgets hand back: the
    dates picked, the amount and texts typed, whether the button was
    pressed, the view selected. *)
Inductive MenuChoice : Type :=
| AddTransaction (date : Date) (amount : Q) (category description : string)
                 (button : bool)
| ViewTransactions (start_date end_date : Date) (button : bool)
                   (viz_type : VizType)
| AnalyticsDashboard (start_date end_date : Date) (viz_type : VizType).

(** What a run puts on the page. *)
Inductive Shown : Type :=
| NothingShown
| EntryAdded
| NoTransactions
| TransactionsShown (df : DataFrame Date)
                    (total_income total_expense net : Q) (plot : Plotted)
| DashboardShown (total_income total_expense balance delta : Q)
                 (plot : Plotted).

(** One run of [main]: the file it leaves and what it shows.  The file
    exists once [initialize_csv] has run, so [add_entry] appends to its
    lines. *)
Definition main (fs : file_state) (choice : MenuChoice)
  : result (file_state * Shown) :=
  let fs := initialize_csv fs in
  match choice with
  | AddTransaction d amount category description button =>
      let date := strftime d in
      if button then
        match fs with
        | Some lines =>
            Return (Some (add_entry lines date amount category description),
                    EntryAdded)
        | None => Return (fs, NothingShown)
        end
      else Return (fs, NothingShown)
  | ViewTransactions s e button viz_type =>
      let start_date := strftime s in
      let end_date := strftime e in
      if button then
        df <- get_transactions fs start_date end_date ;;
        if empty df then Return (fs, NoTransactions)
        else
          let total_income := total df "Income" in
          let total_expense := total df "Expense" in
          plot <- create_visualizations df viz_type ;;
          Return (fs, TransactionsShown df total_income total_expense
                        (total_income - total_expense)%Q plot)
      else Return (fs, NothingShown)
  | AnalyticsDashboard s e viz_type =>
      let start_date := strftime s in
      let end_date := strftime e in
      df <- get_transactions fs start_date end_date ;;
      if empty df then Return (fs, NoTransactions)
      else
        let total_income := total df "Income" in
        let total_expense := total df "Expense" in
        let balance := (total_income - total_expense)%Q in
        delta <- (if Qgtb total_income 0
                  then q <- truediv balance total_income ;; Return (q * 100)%Q
                  else Return 0%Q) ;;
        plot <- create_visualizations df viz_type ;;
        Return (fs, DashboardShown total_income total_expense balance delta plot)
  end.

(* ================================================================= *)
(** ** Vocabulary of the statements *)

Definition wf_date (d : Date) : Prop :=
  1 <= month d <= 12 /\ 1 <= day d <= days_in_month (year d) (month d).

(** The texts a regular expression matches. *)
Fixpoint lang (r : re) (t : string) : Prop :=
  match r with
  | Chr c => t = String c ""
  | Rng lo hi => exists a, in_range lo hi a = true /\ t = String a ""
  | Cat r1 r2 => exists t1 t2, t = (t1 ++ t2)%string /\ lang r1 t1 /\ lang r2 t2
  | Alt r1 r2 => lang r1 t \/ lang r2 t
  end.

(** The ledger: the transactions the file holds, dates parsed. *)
Definition ledger_of (lines : list csv_line) : result (DataFrame Date) :=
  to_datetime (map read_line lines).

Definition dates_valid (df : DataFrame Date) : Prop :=
  Forall (fun r => valid_date (date r)) df.

(** [start <= d <= end] in calendar order. *)
Definition in_date_range (s e d : Date) : bool := date_leb s d && date_leb d e.

Definition ex_lines : list csv_line :=
  [ mkLine "15-01-2024" 1000 "Income" "Salary";
    mkLine "20-01-2024" 200 "Expense" "Groceries";
    mkLine "10-03-2024" (5#2) "Income" "";
    mkLine "11-03-2024" 7 "Expense" "Groceries"]%string.

Definition ex_df : DataFrame Date :=
  [ mkRow (mkDate 2024 1 15) 1000 (Some "Income") (Some "Salary");
    mkRow (mkDate 2024 1 20) 200 (Some "Expense") (Some "Groceries");
    mkRow (mkDate 2024 3 10) (5#2) (Some "Income") None;
    mkRow (mkDate 2024 3 11) 7 (Some "Expense") (Some "Groceries")]%string.

(** The sum of [amount] over the rows whose category equals [c]. *)
Fixpoint sum_where {D : Type} (c : string) (df : DataFrame D) : Q :=
  match df with
  | [] => 0%Q
  | r :: t =>
      match category r with
      | Some x => if string_dec x c then (amount r + sum_where c t)%Q
                  else sum_where c t
      | None => sum_where c t
      end
  end.

Definition date_lt (a b : Date) : Prop := date_ltb a b = true.

(** The sum of [amount] over the rows dated [d]. *)
Definition sum_on_day (d : Date) (df : DataFrame Date) : Q :=
  series_sum (map amount (filter (fun r => date_eqb (date r) d) df)).

(** The sum of [amount] over the rows dated in the month of [b]. *)
Definition sum_in_month (b : Date) (df : DataFrame Date) : Q :=
  series_sum (map amount (filter (fun r => same_month (date r) b) df)).

Definition ex_days : DataFrame Date :=
  [ mkRow (mkDate 2024 2 28) 10 (Some "Income") (Some "Salary");
    mkRow (mkDate 2024 3 1) 5 (Some "Income") (Some "Bonus");
    mkRow (mkDate 2024 2 29) 7 (Some "Expense") (Some "Rent") ]%string.

(** Monthly resampling as the specification words it: rows bucketed by
    their date truncated to the first day of its month, amounts summed
    per bucket, buckets in ascending date order. *)
Definition first_of_month (d : Date) : Date := mkDate (year d) (month d) 1.

Fixpoint bucket_add (k : Date) (v : Q) (g : Series) : Series :=
  match g with
  | [] => [(k, v)]
  | (k', s) :: t =>
      match date_compare k k' with
      | Eq => (k', (s + v)%Q) :: t
      | Lt => (k, v) :: g
      | Gt => (k', s) :: bucket_add k v t
      end
  end.

Definition spec_resample_month (df : DataFrame Date) : Series :=
  fold_left (fun g r => bucket_add (first_of_month (date r)) (amount r) g) df [].

Definition ex_months : DataFrame Date :=
  [ mkRow (mkDate 2024 1 5) 100 (Some "Income") (Some "Salary");
    mkRow (mkDate 2024 1 25) 200 (Some "Income") (Some "Bonus");
    mkRow (mkDate 2024 3 10) 50 (Some "Income") (Some "Gift") ]%string.

(** The date of the line parses to a timestamp within range. *)
Definition line_loads (l : csv_line) : Prop :=
  exists d, strptime (l_date l) = Some d /\ in_ns_bounds d = true.

(** The row read back from a line whose date is [d]. *)
Definition row_of (d : Date) (amount : Q) (category description : string)
  : Row Date :=
  mkRow d amount (na_filter category) (na_filter description).

Definition ex_bad_lines : list csv_line :=
  [ mkLine "15-01-2024" 10 "Income" "Salary";
    mkLine "2024-12-31" 20 "Income" "Bonus" ]%string.

(** No date field is a text [read_csv] takes for a missing value. *)
Definition dates_present (lines : list csv_line) : Prop :=
  Forall (fun l => na_filter (l_date l) <> None) lines.

Definition string_lt (a b : string) : Prop := String.compare a b = Lt.

Definition described (k : string) {D : Type} (r : Row D) : bool :=
  match description r with
  | Some x => String.eqb x k
  | None => false
  end.

(** The sum of [amount] over the rows whose description is [k]. *)
Definition sum_described {D : Type} (k : string) (df : DataFrame D) : Q :=
  series_sum (map amount (filter (described k) df)).

Definition amounts_nonneg {D : Type} (df : DataFrame D) : Prop :=
  Forall (fun r => (0 <= amount r)%Q) df.

(** The timestamps of a series, and a series with no timestamp twice. *)
Definition ts_keys (s : Series) : list Z := map (fun p => ts_value (fst p)) s.

Definition distinct_ts (s : Series) : Prop := NoDup (ts_keys s).

(* ================================================================= *)
(** ** Calendar arithmetic *)

Ltac month_cases m :=
  let H := fresh "Hm" in
  assert (H : m = 1 \/ m = 2 \/ m = 3 \/ m = 4 \/ m = 5 \/ m = 6 \/
              m = 7 \/ m = 8 \/ m = 9 \/ m = 10 \/ m = 11 \/ m = 12) by lia;
  repeat (destruct H as [H | H]; [subst m | ]); [ .. | subst m].

Lemma valid_date_wf d : valid_date d -> wf_date d.
Proof.
  unfold valid_date, check_date_fields, wf_date. intros H.
  repeat (apply andb_prop in H; destruct H as [H ?]). lia.
Qed.

Lemma valid_date_year d : valid_date d -> 1 <= year d <= 9999.
Proof.
  unfold valid_date, check_date_fields, MINYEAR, MAXYEAR. intros H.
  repeat (apply andb_prop in H; destruct H as [H ?]). lia.
Qed.

Lemma days_before_year_succ y :
  days_before_year (y + 1) =
  days_before_year y + (if is_leap y then 366 else 365).
Proof.
  unfold days_before_year, is_leap.
  replace (y + 1 - 1) with y by lia.
  destruct (y mod 4 =? 0) eqn:E4; destruct (y mod 100 =? 0) eqn:E100;
    destruct (y mod 400 =? 0) eqn:E400; cbn [andb orb negb];
    Z.div_mod_to_equations; lia.
Qed.

Lemma days_before_year_mono y1 y2 :
  y1 <= y2 -> days_before_year y1 <= days_before_year y2.
Proof.
  unfold days_before_year. intros H. Z.div_mod_to_equations. lia.
Qed.

Lemma days_in_month_range y m :
  1 <= m <= 12 -> 28 <= days_in_month y m <= 31.
Proof.
  intros H. unfold days_in_month. month_cases m; destruct (is_leap y); cbn; lia.
Qed.

Lemma days_before_month_succ y m :
  1 <= m < 12 ->
  days_before_month y (m + 1) = days_before_month y m + days_in_month y m.
Proof.
  intros H. unfold days_before_month, days_in_month.
  month_cases m; destruct (is_leap y); cbn; lia.
Qed.

Lemma days_before_month_mono y m1 m2 :
  1 <= m1 -> m1 < m2 -> m2 <= 12 ->
  days_before_month y m1 + days_in_month y m1 <= days_before_month y m2.
Proof.
  intros H1 H2 H3. unfold days_before_month, days_in_month.
  month_cases m1; month_cases m2; try lia; destruct (is_leap y); cbn; lia.
Qed.

Lemma days_before_month_nonneg y m : 1 <= m <= 12 -> 0 <= days_before_month y m.
Proof.
  intros H. unfold days_before_month.
  month_cases m; destruct (is_leap y); cbn; lia.
Qed.

Lemma days_in_year_bound y m :
  1 <= m <= 12 ->
  days_before_month y m + days_in_month y m <= (if is_leap y then 366 else 365).
Proof.
  intros H. unfold days_before_month, days_in_month.
  month_cases m; destruct (is_leap y); cbn; lia.
Qed.

Lemma toordinal_compare a b :
  wf_date a -> wf_date b ->
  date_compare a b = (toordinal a ?= toordinal b).
Proof.
  destruct a as [ya ma da], b as [yb mb db].
  unfold wf_date, date_compare, toordinal, ymd2ord; cbn [year month day].
  intros [Hma Hda] [Hmb Hdb].
  pose proof (days_before_month_nonneg ya ma Hma).
  pose proof (days_before_month_nonneg yb mb Hmb).
  pose proof (days_in_year_bound ya ma Hma).
  pose proof (days_in_year_bound yb mb Hmb).
  destruct (Z.compare_spec ya yb) as [Ey | Ly | Ly].
  - subst yb. destruct (Z.compare_spec ma mb) as [Em | Lm | Lm].
    + subst mb. destruct (Z.compare_spec da db); symmetry;
        [apply Z.compare_eq_iff | apply Z.compare_lt_iff | apply Z.compare_gt_iff];
        lia.
    + symmetry. apply Z.compare_lt_iff.
      pose proof (days_before_month_mono ya ma mb). lia.
    + symmetry. apply Z.compare_gt_iff.
      pose proof (days_before_month_mono ya mb ma). lia.
  - symmetry. apply Z.compare_lt_iff.
    pose proof (days_before_year_succ ya).
    pose proof (days_before_year_mono (ya + 1) yb).
    destruct (is_leap ya); lia.
  - symmetry. apply Z.compare_gt_iff.
    pose proof (days_before_year_succ yb).
    pose proof (days_before_year_mono (yb + 1) ya).
    destruct (is_leap yb); lia.
Qed.

Lemma date_leb_ts a b :
  wf_date a -> wf_date b -> date_leb a b = (ts_value a <=? ts_value b).
Proof.
  intros Ha Hb. unfold date_leb, ts_value. rewrite (toordinal_compare a b Ha Hb).
  destruct (Z.compare_spec (toordinal a) (toordinal b)); symmetry;
    [apply Z.leb_le | apply Z.leb_le | apply Z.leb_gt]; lia.
Qed.

Lemma date_ltb_ts a b :
  wf_date a -> wf_date b -> date_ltb a b = (ts_value a <? ts_value b).
Proof.
  intros Ha Hb. unfold date_ltb, ts_value. rewrite (toordinal_compare a b Ha Hb).
  destruct (Z.compare_spec (toordinal a) (toordinal b)); symmetry;
    [apply Z.ltb_ge | apply Z.ltb_lt | apply Z.ltb_ge]; lia.
Qed.

Lemma date_compare_eq a b : date_compare a b = Eq -> a = b.
Proof.
  destruct a as [ya ma da], b as [yb mb db].
  unfold date_compare; cbn [year month day].
  destruct (Z.compare_spec ya yb); try discriminate.
  destruct (Z.compare_spec ma mb); try discriminate.
  destruct (Z.compare_spec da db); try discriminate.
  intros _. congruence.
Qed.

Lemma ts_value_inj a b :
  wf_date a -> wf_date b -> ts_value a = ts_value b -> a = b.
Proof.
  intros Ha Hb E. apply date_compare_eq.
  rewrite (toordinal_compare a b Ha Hb). apply Z.compare_eq_iff.
  unfold ts_value in E. lia.
Qed.

Lemma next_day_wf d : wf_date d -> wf_date (next_day d).
Proof.
  destruct d as [y m dd]. unfold wf_date, next_day; cbn [year month day].
  intros [Hm Hd].
  destruct (dd <? days_in_month y m) eqn:E1; cbn [year month day].
  - apply Z.ltb_lt in E1. lia.
  - destruct (m <? 12) eqn:E2; cbn [year month day].
    + apply Z.ltb_lt in E2.
      pose proof (days_in_month_range y (m + 1)). lia.
    + pose proof (days_in_month_range (y + 1) 1). lia.
Qed.

Lemma next_day_ts d : wf_date d -> ts_value (next_day d) = ts_value d + 1.
Proof.
  destruct d as [y m dd].
  unfold wf_date, next_day, ts_value, toordinal, ymd2ord; cbn [year month day].
  intros [Hm Hd].
  destruct (dd <? days_in_month y m) eqn:E1; cbn [year month day].
  - lia.
  - apply Z.ltb_ge in E1. destruct (m <? 12) eqn:E2; cbn [year month day].
    + apply Z.ltb_lt in E2. rewrite days_before_month_succ by lia. lia.
    + apply Z.ltb_ge in E2. assert (m = 12) by lia. subst m.
      rewrite days_before_year_succ.
      unfold days_before_month, days_in_month in *.
      destruct (is_leap y); cbn in *; lia.
Qed.

Lemma month_end_of_index_wf i : wf_date (month_end_of_index i).
Proof.
  unfold wf_date, month_end_of_index; cbn [year month day].
  pose proof (Z.mod_pos_bound i 12 ltac:(lia)).
  pose proof (days_in_month_range (i / 12) (i mod 12 + 1)). lia.
Qed.

Lemma month_index_of_end i : month_index (month_end_of_index i) = i.
Proof.
  unfold month_index, month_end_of_index; cbn [year month day].
  Z.div_mod_to_equations. lia.
Qed.

Lemma month_index_mono a b :
  wf_date a -> wf_date b -> ts_value a <= ts_value b ->
  month_index a <= month_index b.
Proof.
  intros Ha Hb H. apply Z.leb_le in H. rewrite <- date_leb_ts in H by assumption.
  destruct a as [ya ma da], b as [yb mb db].
  unfold date_leb, date_compare, month_index, wf_date in *; cbn [year month day] in *.
  destruct (Z.compare_spec ya yb); try discriminate; try lia.
  destruct (Z.compare_spec ma mb); try discriminate; lia.
Qed.

(** A monthly bin, closed on the right, holds the timestamps of one
    calendar month. *)
Lemma month_bin d i :
  wf_date d ->
  (ts_value (month_end_of_index (i - 1)) <? ts_value d) &&
  (ts_value d <=? ts_value (month_end_of_index i)) = (month_index d =? i).
Proof.
  intros Hd.
  rewrite <- date_ltb_ts, <- date_leb_ts by auto using month_end_of_index_wf.
  destruct d as [y m dd].
  unfold wf_date, date_ltb, date_leb, date_compare, month_end_of_index, month_index in *;
    cbn [year month day] in *.
  assert (F1 : (i - 1) / 12 = y -> (i - 1) mod 12 + 1 = m ->
               days_in_month ((i - 1) / 12) ((i - 1) mod 12 + 1) = days_in_month y m)
    by (intros -> ->; reflexivity).
  assert (F2 : i / 12 = y -> i mod 12 + 1 = m ->
               days_in_month (i / 12) (i mod 12 + 1) = days_in_month y m)
    by (intros -> ->; reflexivity).
  destruct (Z.compare_spec ((i - 1) / 12) y);
    destruct (Z.compare_spec ((i - 1) mod 12 + 1) m);
    destruct (Z.compare_spec (days_in_month ((i - 1) / 12) ((i - 1) mod 12 + 1)) dd);
    destruct (Z.compare_spec y (i / 12));
    destruct (Z.compare_spec m (i mod 12 + 1));
    destruct (Z.compare_spec dd (days_in_month (i / 12) (i mod 12 + 1)));
    cbn [andb]; symmetry;
    first [ apply Z.eqb_eq | apply Z.eqb_neq ];
    Z.div_mod_to_equations; lia.
Qed.

(* ================================================================= *)
(** ** The date format *)

Lemma mod10_cases n :
  n mod 10 = 0 \/ n mod 10 = 1 \/ n mod 10 = 2 \/ n mod 10 = 3 \/
  n mod 10 = 4 \/ n mod 10 = 5 \/ n mod 10 = 6 \/ n mod 10 = 7 \/
  n mod 10 = 8 \/ n mod 10 = 9.
Proof. pose proof (Z.mod_pos_bound n 10 ltac:(lia)). lia. Qed.

Lemma digit_in_range n : in_range "0" "9" (digit n) = true.
Proof.
  unfold digit.
  destruct (mod10_cases n) as [H | [H | [H | [H | [H | [H | [H | [H | [H | H]]]]]]]]];
    rewrite H; reflexivity.
Qed.

Lemma digit_value n : Z.of_N (N_of_ascii (digit n)) - 48 = n mod 10.
Proof.
  unfold digit.
  destruct (mod10_cases n) as [H | [H | [H | [H | [H | [H | [H | [H | [H | H]]]]]]]]];
    rewrite H; reflexivity.
Qed.

Lemma digit_not_blank n t : lstrip (String (digit n) t) = String (digit n) t.
Proof.
  unfold digit.
  destruct (mod10_cases n) as [H | [H | [H | [H | [H | [H | [H | [H | [H | H]]]]]]]]];
    rewrite H; reflexivity.
Qed.

(** A character of [[0-9]] is the digit of its value. *)
Lemma in_range_digit c :
  in_range "0" "9" c = true ->
  c = digit (Z.of_N (N_of_ascii c) - 48) /\
  0 <= Z.of_N (N_of_ascii c) - 48 <= 9.
Proof.
  destruct c as [[] [] [] [] [] [] [] []]; vm_compute; intros H;
    first [ discriminate H | split; [reflexivity | split; discriminate] ].
Qed.

Lemma in_range_sub lo hi c :
  (N_of_ascii "0" <= N_of_ascii lo)%N -> (N_of_ascii hi <= N_of_ascii "9")%N ->
  in_range lo hi c = true -> in_range "0" "9" c = true.
Proof.
  unfold in_range. intros Hlo Hhi H.
  apply andb_prop in H. destruct H as [H1 H2].
  apply N.leb_le in H1, H2. apply andb_true_intro. split; apply N.leb_le; lia.
Qed.

Lemma int_pad2 n : 0 <= n <= 99 -> int (pad2 n) = n.
Proof.
  intros H. unfold int, pad2. rewrite digit_not_blank. cbn [int_digits].
  rewrite !digit_value. Z.div_mod_to_equations. lia.
Qed.

Lemma int_pad4 n : 0 <= n <= 9999 -> int (pad4 n) = n.
Proof.
  intros H. unfold int, pad4, pad2. rewrite digit_not_blank. cbn [int_digits].
  rewrite !digit_value. Z.div_mod_to_equations. lia.
Qed.

Lemma re_match_digit n t :
  re_match re_digit (String (digit n) t) = [(String (digit n) "", t)].
Proof. cbn. rewrite digit_in_range. reflexivity. Qed.

Lemma re_match_Y n :
  re_match re_Y (pad4 n) = [(pad4 n, ""%string)].
Proof.
  unfold re_Y, pad4, pad2. cbn [re_match].
  repeat (rewrite re_match_digit; cbn [flat_map map fst snd app String.append]).
  reflexivity.
Qed.

Lemma re_match_d n t :
  1 <= n <= 31 ->
  exists tl, re_match re_d (pad2 n ++ t) = (pad2 n, t) :: tl.
Proof.
  intros H.
  assert (C : n = 1 \/ n = 2 \/ n = 3 \/ n = 4 \/ n = 5 \/ n = 6 \/ n = 7 \/
              n = 8 \/ n = 9 \/ n = 10 \/ n = 11 \/ n = 12 \/ n = 13 \/
              n = 14 \/ n = 15 \/ n = 16 \/ n = 17 \/ n = 18 \/ n = 19 \/
              n = 20 \/ n = 21 \/ n = 22 \/ n = 23 \/ n = 24 \/ n = 25 \/
              n = 26 \/ n = 27 \/ n = 28 \/ n = 29 \/ n = 30 \/ n = 31) by lia.
  repeat (destruct C as [C | C]; [subst n; eexists; cbv; reflexivity | ]).
  subst n; eexists; cbv; reflexivity.
Qed.

Lemma re_match_m n t :
  1 <= n <= 12 ->
  exists tl, re_match re_m (pad2 n ++ t) = (pad2 n, t) :: tl.
Proof.
  intros H. month_cases n; eexists; cbv; reflexivity.
Qed.

Lemma hd_error_flat_map {A B : Type} (f : A -> list B) x tl v :
  hd_error (f x) = Some v -> hd_error (flat_map f (x :: tl)) = Some v.
Proof.
  cbn [flat_map]. destruct (f x); cbn; [discriminate | auto].
Qed.

Lemma format_regex_match_strftime y m d :
  1 <= d <= 31 -> 1 <= m <= 12 ->
  format_regex_match (strftime (mkDate y m d)) =
  Some (pad2 d, pad2 m, pad4 y, ""%string).
Proof.
  intros Hd Hm. unfold format_regex_match, strftime; cbn [year month day].
  destruct (re_match_d d ("-" ++ pad2 m ++ "-" ++ pad4 y) Hd) as [tl1 E1].
  rewrite E1. apply hd_error_flat_map. cbn [fst snd].
  change ("-" ++ pad2 m ++ "-" ++ pad4 y)%string
    with (String "-" (pad2 m ++ "-" ++ pad4 y)).
  cbn [re_match Ascii.eqb Bool.eqb]. apply hd_error_flat_map. cbn [fst snd].
  destruct (re_match_m m ("-" ++ pad4 y) Hm) as [tl2 E2].
  rewrite E2. apply hd_error_flat_map. cbn [fst snd].
  change ("-" ++ pad4 y)%string with (String "-" (pad4 y)).
  cbn [re_match Ascii.eqb Bool.eqb]. apply hd_error_flat_map. cbn [fst snd].
  rewrite re_match_Y. reflexivity.
Qed.

(** Parsing what [strftime] wrote gives the date back. *)
Lemma strptime_strftime d : valid_date d -> strptime (strftime d) = Some d.
Proof.
  intros V. pose proof (valid_date_wf d V) as [Hm Hd].
  pose proof (valid_date_year d V) as Hy.
  pose proof (days_in_month_range (year d) (month d) Hm).
  destruct d as [y m dd]; cbn [year month day] in *.
  unfold strptime. rewrite format_regex_match_strftime by lia.
  cbn [String.eqb negb].
  rewrite int_pad2, int_pad2, int_pad4 by lia.
  unfold valid_date in V; cbn [year month day] in V. rewrite V. reflexivity.
Qed.

Lemma string_app_assoc (a b c : string) :
  ((a ++ b) ++ c = a ++ (b ++ c))%string.
Proof. induction a; cbn; congruence. Qed.

Lemma re_match_sound r :
  forall s t rest,
    In (t, rest) (re_match r s) -> s = (t ++ rest)%string /\ lang r t.
Proof.
  induction r as [c | lo hi | r1 IH1 r2 IH2 | r1 IH1 r2 IH2];
    intros s t rest H; cbn [re_match lang] in *.
  - destruct s as [| a s']; [contradiction |].
    destruct (Ascii.eqb a c) eqn:E; [| contradiction].
    apply Ascii.eqb_eq in E. subst a.
    destruct H as [H | []]. inversion H; subst. auto.
  - destruct s as [| a s']; [contradiction |].
    destruct (in_range lo hi a) eqn:E; [| contradiction].
    destruct H as [H | []]. inversion H; subst. eauto.
  - apply in_flat_map in H. destruct H as [[t1 s1] [H1 H2]].
    apply in_map_iff in H2. destruct H2 as [[t2 s2] [E H2]].
    cbn [fst snd] in *. inversion E; subst.
    apply IH1 in H1. apply IH2 in H2. destruct H1 as [-> L1], H2 as [-> L2].
    split; [symmetry; apply string_app_assoc | eauto].
  - apply in_app_or in H. destruct H as [H | H]; [apply IH1 in H | apply IH2 in H];
      tauto.
Qed.

Lemma hd_error_In {A : Type} (l : list A) x : hd_error l = Some x -> In x l.
Proof. destruct l; cbn; [discriminate | intros [= ->]; auto]. Qed.

Lemma format_regex_match_inv s td tm tY rest :
  format_regex_match s = Some (td, tm, tY, rest) ->
  s = (td ++ "-" ++ tm ++ "-" ++ tY ++ rest)%string /\
  lang re_d td /\ lang re_m tm /\ lang re_Y tY.
Proof.
  unfold format_regex_match. intros H. apply hd_error_In in H.
  apply in_flat_map in H. destruct H as [[d s1] [Hd H]].
  apply in_flat_map in H. destruct H as [[x1 s2] [H1 H]].
  apply in_flat_map in H. destruct H as [[m s3] [Hm H]].
  apply in_flat_map in H. destruct H as [[x2 s4] [H2 H]].
  apply in_map_iff in H. destruct H as [[Y s5] [E HY]].
  cbn [fst snd] in *. inversion E; subst.
  apply re_match_sound in Hd, H1, Hm, H2, HY.
  destruct Hd as [-> Ld], H1 as [-> L1], Hm as [-> Lm], H2 as [-> L2], HY as [-> LY].
  cbn [lang] in L1, L2. subst. auto.
Qed.

Lemma digit_eq x y : x mod 10 = y mod 10 -> digit x = digit y.
Proof. unfold digit. intros ->. reflexivity. Qed.

Lemma pad2_int a b :
  in_range "0" "9" a = true -> in_range "0" "9" b = true ->
  pad2 (int (String a (String b ""))) = String a (String b "").
Proof.
  intros Ha Hb.
  destruct (in_range_digit a Ha) as [Ea Ra], (in_range_digit b Hb) as [Eb Rb].
  set (ka := Z.of_N (N_of_ascii a) - 48) in *.
  set (kb := Z.of_N (N_of_ascii b) - 48) in *.
  rewrite Ea, Eb. unfold int. rewrite digit_not_blank. cbn [int_digits].
  rewrite !digit_value. unfold pad2.
  f_equal; [| f_equal]; apply digit_eq; Z.div_mod_to_equations; lia.
Qed.

Lemma pad4_int a b c e :
  in_range "0" "9" a = true -> in_range "0" "9" b = true ->
  in_range "0" "9" c = true -> in_range "0" "9" e = true ->
  pad4 (int (String a (String b (String c (String e "")))))
  = String a (String b (String c (String e ""))).
Proof.
  intros Ha Hb Hc He.
  destruct (in_range_digit a Ha) as [Ea Ra], (in_range_digit b Hb) as [Eb Rb],
           (in_range_digit c Hc) as [Ec Rc], (in_range_digit e He) as [Ee Re].
  set (ka := Z.of_N (N_of_ascii a) - 48) in *.
  set (kb := Z.of_N (N_of_ascii b) - 48) in *.
  set (kc := Z.of_N (N_of_ascii c) - 48) in *.
  set (ke := Z.of_N (N_of_ascii e) - 48) in *.
  rewrite Ea, Eb, Ec, Ee. unfold int. rewrite digit_not_blank. cbn [int_digits].
  rewrite !digit_value. unfold pad4, pad2.
  f_equal; [| f_equal; [| f_equal; [| f_equal]]]; apply digit_eq;
    Z.div_mod_to_equations; lia.
Qed.

Ltac split_lang :=
  repeat match goal with
         | H : _ \/ _ |- _ => destruct H as [H | H]
         | H : exists _, _ |- _ => destruct H as [? H]
         | H : _ /\ _ |- _ => destruct H as [? H]
         end.

Ltac digit_range :=
  solve [ reflexivity
        | eapply in_range_sub; [ | | eassumption]; vm_compute; discriminate ].

(** A text of ten characters that parses and does not begin with a
    blank is what [strftime] writes for its date. *)
Lemma strftime_strptime_canonical s d :
  strptime s = Some d ->
  String.length s = 10%nat ->
  String.get 0 s <> Some " "%char ->
  strftime d = s.
Proof.
  unfold strptime. intros H L B.
  destruct (format_regex_match s) as [[[[td tm] tY] rest] |] eqn:E; [| discriminate].
  destruct (String.eqb rest "") eqn:Er; cbn [negb] in H; [| discriminate].
  apply String.eqb_eq in Er. subst rest.
  destruct (check_date_fields (int tY) (int tm) (int td)); [| discriminate].
  injection H as <-.
  apply format_regex_match_inv in E. destruct E as (-> & Ld & Lm & LY).
  unfold strftime; cbn [year month day].
  cbn [lang re_d re_m re_Y re_digit] in Ld, Lm, LY.
  split_lang; subst; cbn in L; try discriminate L;
    cbn [String.append] in *; try (exfalso; apply B; reflexivity);
    rewrite pad4_int by digit_range;
    rewrite !pad2_int by digit_range; reflexivity.
Qed.

Lemma strptime_valid s d : strptime s = Some d -> valid_date d.
Proof.
  unfold strptime, valid_date.
  destruct (format_regex_match s) as [[[[td tm] tY] rest] |]; [| discriminate].
  destruct (negb (rest =? "")%string); [discriminate |].
  destruct (check_date_fields (int tY) (int tm) (int td)) eqn:E; [| discriminate].
  intros [= <-]. exact E.
Qed.

Lemma year_unpadded_four y : 1000 <= y -> year_unpadded y = pad4 y.
Proof.
  intros H. unfold year_unpadded.
  destruct (Z.ltb_spec y 10); [lia |].
  destruct (Z.ltb_spec y 100); [lia |].
  destruct (Z.ltb_spec y 1000); [lia | reflexivity].
Qed.

Lemma strftime_unpadded_four d :
  1000 <= year d -> strftime_unpadded d = strftime d.
Proof.
  intros H. unfold strftime_unpadded, strftime.
  rewrite year_unpadded_four by assumption. reflexivity.
Qed.

(** C4, as stated, fails.  [strptime] accepts a day and a month written
    without their leading zero, and [strftime] does not give that text
    back; and where [%Y] is written without padding, the text of a date
    before the year 1000 does not parse. *)
Lemma strptime_accepts_unpadded :
  strptime "5-3-2024" = Some (mkDate 2024 3 5) /\
  strftime (mkDate 2024 3 5) = "05-03-2024"%string /\
  strftime (mkDate 2024 3 5) <> "5-3-2024"%string /\
  valid_date (mkDate 999 12 31) /\
  strftime_unpadded (mkDate 999 12 31) = "31-12-999"%string /\
  strptime "31-12-999" = None.
Proof. repeat split. discriminate. Qed.

(** C4, amended.  For every valid calendar date [d] with a four-digit
    year, from 1000 on, the formatted text of [d] is the same whether
    or not [%Y] is padded, and parsing it yields [d] again.  For every
    ASCII text [s] that parses successfully to such a date, formatting
    the parsed date yields the zero-padded text of that date, which
    parses to it again; it is [s] itself when [s] has ten characters
    and does not begin with a blank, that is when day and month are
    written with two digits. *)
Theorem date_format_round_trip :
  (forall d, valid_date d -> 1000 <= year d ->
             strftime_unpadded d = strftime d /\
             strptime (strftime d) = Some d) /\
  (forall s d, isascii s = true -> strptime s = Some d -> 1000 <= year d ->
               strftime_unpadded d = strftime d /\
               strptime (strftime d) = Some d /\
               (String.length s = 10%nat ->
                String.get 0 s <> Some " "%char ->
                strftime d = s)).
Proof.
  split.
  - intros d V Y. split; [apply strftime_unpadded_four, Y | apply strptime_strftime, V].
  - intros s d _ H Y. split; [apply strftime_unpadded_four, Y |]. split.
    + apply strptime_strftime. eapply strptime_valid. eassumption.
    + apply strftime_strptime_canonical, H.
Qed.

Lemma date_format_round_trip_witness :
  strptime (strftime (mkDate 2024 2 29)) = Some (mkDate 2024 2 29) /\
  strptime (strftime (mkDate 2024 3 5)) = Some (mkDate 2024 3 5) /\
  strftime (mkDate 2024 3 5) = "05-03-2024"%string.
Proof.
  destruct date_format_round_trip as (F & G).
  split; [| split].
  - apply (F (mkDate 2024 2 29)); [reflexivity | discriminate].
  - apply (G "5-3-2024"%string (mkDate 2024 3 5)); [reflexivity | reflexivity | discriminate].
  - apply (G "05-03-2024"%string (mkDate 2024 3 5)).
    + reflexivity.
    + reflexivity.
    + discriminate.
    + reflexivity.
    + discriminate.
Defined.

(* ================================================================= *)
(** ** The range query *)

Lemma to_datetime_valid df :
  forall rows, to_datetime df = Return rows -> dates_valid rows.
Proof.
  unfold dates_valid.
  induction df as [| r t IH]; cbn [to_datetime]; intros rows H.
  - injection H as <-. constructor.
  - destruct (strptime (date r)) as [d |] eqn:E; [| discriminate].
    destruct (in_ns_bounds d); [| discriminate].
    destruct (to_datetime t) as [t' | x]; cbn [bind] in H; [| discriminate].
    injection H as <-. constructor; [| auto].
    cbn [date]. eapply strptime_valid; eassumption.
Qed.

Lemma loc_mask_filter {A : Type} (f g : A -> bool) (df : list A) :
  loc df (mask_and (map f df) (map g df)) = filter (fun r => f r && g r) df.
Proof.
  induction df as [| r t IH]; cbn; [reflexivity |].
  rewrite IH. reflexivity.
Qed.

Lemma loc_map_filter {A : Type} (f : A -> bool) (df : list A) :
  loc df (map f df) = filter f df.
Proof.
  induction df as [| r t IH]; cbn; [reflexivity |].
  rewrite IH. reflexivity.
Qed.

Lemma get_transactions_filter lines df start_date end_date s e :
  ledger_of lines = Return df ->
  strptime start_date = Some s ->
  strptime end_date = Some e ->
  get_transactions (Some lines) start_date end_date =
  Return (filter (fun r => in_date_range s e (date r)) df).
Proof.
  unfold ledger_of, get_transactions, strptime_exn. intros Hdf Hs He.
  cbn [read_csv bind]. rewrite Hdf, Hs, He. cbn [bind].
  rewrite loc_mask_filter. f_equal.
  apply to_datetime_valid in Hdf. unfold dates_valid in Hdf.
  rewrite Forall_forall in Hdf.
  apply strptime_valid, valid_date_wf in Hs, He.
  apply filter_ext_in. intros r Hr.
  pose proof (valid_date_wf _ (Hdf r Hr)) as Wr.
  unfold in_date_range. rewrite !date_leb_ts by assumption. reflexivity.
Qed.

Lemma date_leb_trans a b c :
  date_leb a b = true -> date_leb b c = true -> date_leb a c = true.
Proof.
  destruct a as [ya ma da], b as [yb mb db], c as [yc mc dc].
  unfold date_leb, date_compare; cbn [year month day].
  destruct (Z.compare_spec ya yb); try discriminate;
    destruct (Z.compare_spec yb yc); try discriminate;
    destruct (Z.compare_spec ya yc); try lia; try reflexivity;
    destruct (Z.compare_spec ma mb); try discriminate;
    destruct (Z.compare_spec mb mc); try discriminate;
    destruct (Z.compare_spec ma mc); try lia; try reflexivity;
    destruct (Z.compare_spec da db); try discriminate;
    destruct (Z.compare_spec db dc); try discriminate;
    destruct (Z.compare_spec da dc); try lia; reflexivity.
Qed.

Lemma date_ltb_not_leb a b : date_ltb a b = true -> date_leb b a = false.
Proof.
  destruct a as [ya ma da], b as [yb mb db].
  unfold date_ltb, date_leb, date_compare; cbn [year month day].
  destruct (Z.compare_spec ya yb); try discriminate;
    destruct (Z.compare_spec yb ya); try lia; try reflexivity;
    destruct (Z.compare_spec ma mb); try discriminate;
    destruct (Z.compare_spec mb ma); try lia; try reflexivity;
    destruct (Z.compare_spec da db); try discriminate;
    destruct (Z.compare_spec db da); try lia; reflexivity.
Qed.

Lemma filter_nothing {A : Type} (f : A -> bool) (l : list A) :
  (forall x, In x l -> f x = false) -> filter f l = [].
Proof.
  induction l as [| x t IH]; cbn; intros H; [reflexivity |].
  rewrite (H x) by auto. apply IH. intros y Hy. apply H. auto.
Qed.

(** C1. For every ledger and every pair of bound texts that parse, the
    range query returns the ledger's transactions whose date [d] has
    [start <= d <= end] in calendar order, both bounds included, in
    ledger order: it is the ledger filtered by that predicate, so a
    transaction is returned exactly when it is in the ledger and in
    range. *)
Theorem get_transactions_range lines df start_date end_date s e :
  ledger_of lines = Return df ->
  strptime start_date = Some s ->
  strptime end_date = Some e ->
  exists out,
    get_transactions (Some lines) start_date end_date = Return out /\
    out = filter (fun r => in_date_range s e (date r)) df /\
    (forall r, In r out <->
               In r df /\ date_leb s (date r) = true /\ date_leb (date r) e = true).
Proof.
  intros Hdf Hs He. eexists. split; [| split].
  - eapply get_transactions_filter; eassumption.
  - reflexivity.
  - intros r. rewrite filter_In. unfold in_date_range.
    rewrite andb_true_iff. tauto.
Qed.

Lemma get_transactions_range_witness :
  get_transactions (Some ex_lines) "15-01-2024" "10-03-2024" =
  Return (firstn 3 ex_df).
Proof.
  destruct (get_transactions_range ex_lines ex_df "15-01-2024" "10-03-2024"
              (mkDate 2024 1 15) (mkDate 2024 3 10)
              eq_refl eq_refl eq_refl) as [out [E [-> _]]].
  exact E.
Defined.

(** C8. For every ledger and every pair of bound texts that parse, with
    the start date strictly after the end date, the range query returns
    the empty frame and raises nothing. *)
Theorem get_transactions_start_after_end lines df start_date end_date s e :
  ledger_of lines = Return df ->
  strptime start_date = Some s ->
  strptime end_date = Some e ->
  date_ltb e s = true ->
  get_transactions (Some lines) start_date end_date = Return [].
Proof.
  intros Hdf Hs He Hlt.
  rewrite (get_transactions_filter lines df start_date end_date s e Hdf Hs He).
  f_equal. apply filter_nothing. intros r _. unfold in_date_range.
  destruct (date_leb s (date r)) eqn:E1; [| reflexivity].
  destruct (date_leb (date r) e) eqn:E2; [| reflexivity].
  pose proof (date_leb_trans _ _ _ E1 E2) as E3.
  rewrite (date_ltb_not_leb _ _ Hlt) in E3. discriminate.
Qed.

Lemma get_transactions_start_after_end_witness :
  get_transactions (Some ex_lines) "10-03-2024" "15-01-2024" = Return [].
Proof.
  exact (get_transactions_start_after_end ex_lines ex_df
           "10-03-2024" "15-01-2024" (mkDate 2024 3 10) (mkDate 2024 1 15)
           eq_refl eq_refl eq_refl eq_refl).
Defined.

(** C7, as stated, fails: with the file absent the range query raises
    [FileNotFoundError], for bounds that parse. *)
Lemma get_transactions_missing_file_raises :
  strptime "01-01-2024" = Some (mkDate 2024 1 1) /\
  strptime "31-01-2024" = Some (mkDate 2024 1 31) /\
  get_transactions None "01-01-2024" "31-01-2024" = Raise FileNotFoundError /\
  get_transactions None "01-01-2024" "31-01-2024" <> Return [].
Proof. repeat split; try reflexivity. discriminate. Qed.

(** C7, amended. With the file absent, the range query raises
    [FileNotFoundError]; once [initialize_csv] has run, as [main] does
    before any query, it returns the empty frame for every pair of bound
    texts that parse; and [initialize_csv] leaves an existing file as
    it is. *)
Theorem get_transactions_after_initialize start_date end_date s e :
  strptime start_date = Some s ->
  strptime end_date = Some e ->
  get_transactions None start_date end_date = Raise FileNotFoundError /\
  get_transactions (initialize_csv None) start_date end_date = Return [] /\
  (forall lines, initialize_csv (Some lines) = Some lines).
Proof.
  intros Hs He. split; [reflexivity | split; [| reflexivity]].
  unfold get_transactions, strptime_exn. cbn. rewrite Hs, He. reflexivity.
Qed.

Lemma get_transactions_after_initialize_witness :
  get_transactions (initialize_csv None) "01-01-2024" "31-01-2024" = Return [].
Proof.
  exact (proj1 (proj2 (get_transactions_after_initialize
                         "01-01-2024" "31-01-2024"
                         (mkDate 2024 1 1) (mkDate 2024 1 31) eq_refl eq_refl))).
Defined.

(* ================================================================= *)
(** ** Totals and savings rate *)

Open Scope Q_scope.

Lemma fold_left_Qplus (l : list Q) (a : Q) :
  fold_left Qplus l a == a + fold_left Qplus l 0.
Proof.
  revert a. induction l as [| x t IH]; intros a; cbn [fold_left].
  - ring.
  - rewrite (IH (a + x)), (IH (0 + x)). ring.
Qed.

Lemma series_sum_cons x l : series_sum (x :: l) == x + series_sum l.
Proof.
  unfold series_sum. cbn [fold_left]. rewrite fold_left_Qplus. ring.
Qed.

Lemma series_sum_app l1 l2 :
  series_sum (l1 ++ l2) == series_sum l1 + series_sum l2.
Proof.
  induction l1 as [| x t IH]; cbn [app].
  - unfold series_sum at 2. cbn. ring.
  - rewrite !series_sum_cons, IH. ring.
Qed.

Lemma total_sum_where {D : Type} (df : DataFrame D) c :
  total df c == sum_where c df.
Proof.
  unfold total, select_category. rewrite loc_map_filter.
  induction df as [| r t IH]; cbn [filter map sum_where]; [reflexivity |].
  unfold category_eq at 1. destruct (category r) as [x |]; [| exact IH].
  destruct (string_dec x c) as [-> | N].
  - rewrite String.eqb_refl. cbn [map]. rewrite series_sum_cons, IH. reflexivity.
  - apply String.eqb_neq in N. rewrite N. exact IH.
Qed.

(** C2. For every transaction subset, the income total is the sum of
    [amount] over the rows whose category is ["Income"], the expense
    total the sum over the rows whose category is ["Expense"], and net
    is income minus expense; on the empty subset all three are 0. *)
Theorem summary_metrics_spec :
  (forall (D : Type) (df : DataFrame D),
      let '(income, expense, net) := summary_metrics df in
      income == sum_where "Income" df /\
      expense == sum_where "Expense" df /\
      net == income - expense) /\
  (forall D : Type, summary_metrics (@nil (Row D)) = (0, 0, 0)).
Proof.
  split.
  - intros D df. unfold summary_metrics.
    split; [apply total_sum_where | split; [apply total_sum_where | reflexivity]].
  - intros D. reflexivity.
Qed.

(** C3. For every income and expense total, the savings rate is
    [(income - expense) / income * 100] when [income > 0] and [0]
    otherwise, and the division never raises. *)
Theorem savings_percent_spec (income expense : Q) :
  (0 < income ->
   savings_percent income expense = Return ((income - expense) / income * 100)) /\
  (~ 0 < income -> savings_percent income expense = Return 0) /\
  (forall x, savings_percent income expense <> Raise x).
Proof.
  unfold savings_percent, Qgtb, truediv.
  destruct (Qle_bool income 0) eqn:E; cbn [negb].
  - apply Qle_bool_iff in E. split; [| split].
    + intros H. exfalso. apply (Qlt_irrefl 0). eapply Qlt_le_trans; eassumption.
    + reflexivity.
    + discriminate.
  - assert (P : 0 < income).
    { apply Qnot_le_lt. intros H. apply Qle_bool_iff in H. congruence. }
    assert (Z : Qeq_bool income 0 = false).
    { destruct (Qeq_bool income 0) eqn:Z; [| reflexivity].
      apply Qeq_bool_iff in Z. rewrite Z in P. exfalso. exact (Qlt_irrefl 0 P). }
    rewrite Z. cbn [bind]. split; [| split].
    + reflexivity.
    + intros H. contradiction.
    + discriminate.
Qed.

Lemma savings_percent_spec_witness :
  savings_percent 1000 200 = Return ((1000 - 200) / 1000 * 100) /\
  savings_percent 0 200 = Return 0.
Proof.
  split.
  - apply (proj1 (savings_percent_spec 1000 200)). reflexivity.
  - apply (proj1 (proj2 (savings_percent_spec 0 200))). discriminate.
Defined.

(* ================================================================= *)
(** ** Breakdown by description *)


Close Scope Q_scope.

(* ================================================================= *)
(** ** Resampling *)

Lemma date_eqb_eq a b : date_eqb a b = true <-> a = b.
Proof.
  destruct a as [ya ma da], b as [yb mb db].
  unfold date_eqb; cbn [year month day]. rewrite !andb_true_iff, !Z.eqb_eq.
  split; [intros [[-> ->] ->]; reflexivity | intros [= -> -> ->]; auto].
Qed.

Lemma date_leb_year a b : date_leb a b = true -> year a <= year b.
Proof.
  unfold date_leb, date_compare.
  destruct (Z.compare_spec (year a) (year b)); try discriminate; lia.
Qed.

Lemma wf_valid d : wf_date d -> 1 <= year d <= 9999 -> valid_date d.
Proof.
  unfold wf_date, valid_date, check_date_fields, MINYEAR, MAXYEAR.
  intros [Hm Hd] Hy. rewrite !andb_true_iff, !Z.leb_le. lia.
Qed.

Lemma min_ts_spec l :
  forall d, In (min_ts d l) (d :: l) /\
            forall x, In x (d :: l) -> ts_value (min_ts d l) <= ts_value x.
Proof.
  induction l as [| y t IH]; intros d; cbn [min_ts].
  - split; [left; reflexivity |]. intros x [<- | []]. lia.
  - destruct (IH (if ts_value y <? ts_value d then y else d)) as [I M].
    destruct (ts_value y <? ts_value d) eqn:E;
      [apply Z.ltb_lt in E | apply Z.ltb_ge in E].
    + split; [destruct I as [<- | I]; cbn; auto |].
      intros x [<- | [<- | Hx]].
      * specialize (M y (or_introl eq_refl)). lia.
      * apply M. left. reflexivity.
      * apply M. right. assumption.
    + split; [destruct I as [<- | I]; cbn; auto |].
      intros x [<- | [<- | Hx]].
      * apply M. left. reflexivity.
      * specialize (M d (or_introl eq_refl)). lia.
      * apply M. right. assumption.
Qed.

Lemma max_ts_spec l :
  forall d, In (max_ts d l) (d :: l) /\
            forall x, In x (d :: l) -> ts_value x <= ts_value (max_ts d l).
Proof.
  induction l as [| y t IH]; intros d; cbn [max_ts].
  - split; [left; reflexivity |]. intros x [<- | []]. lia.
  - destruct (IH (if ts_value d <? ts_value y then y else d)) as [I M].
    destruct (ts_value d <? ts_value y) eqn:E;
      [apply Z.ltb_lt in E | apply Z.ltb_ge in E].
    + split; [destruct I as [<- | I]; cbn; auto |].
      intros x [<- | [<- | Hx]].
      * specialize (M y (or_introl eq_refl)). lia.
      * apply M. left. reflexivity.
      * apply M. right. assumption.
    + split; [destruct I as [<- | I]; cbn; auto |].
      intros x [<- | [<- | Hx]].
      * apply M. left. reflexivity.
      * specialize (M d (or_introl eq_refl)). lia.
      * apply M. right. assumption.
Qed.

Lemma day_range_wf n :
  forall start, wf_date start -> Forall wf_date (day_range start n).
Proof.
  induction n as [| n IH]; intros start W; cbn [day_range]; constructor.
  - assumption.
  - apply IH, next_day_wf, W.
Qed.

Lemma day_range_ts n :
  forall start d, wf_date start -> In d (day_range start n) ->
                  ts_value start <= ts_value d < ts_value start + Z.of_nat n.
Proof.
  induction n as [| n IH]; intros start d W H; cbn [day_range] in H.
  - contradiction.
  - destruct H as [<- | H]; [lia |].
    apply IH in H; [| apply next_day_wf, W]. rewrite next_day_ts in H by assumption.
    lia.
Qed.

Lemma day_range_In n :
  forall start d, wf_date start -> wf_date d ->
                  ts_value start <= ts_value d < ts_value start + Z.of_nat n ->
                  In d (day_range start n).
Proof.
  induction n as [| n IH]; intros start d W Wd H; cbn [day_range].
  - lia.
  - destruct (Z.eq_dec (ts_value d) (ts_value start)) as [E | N].
    + left. symmetry. apply ts_value_inj; assumption.
    + right. apply IH; [apply next_day_wf, W | assumption |].
      rewrite next_day_ts by assumption. lia.
Qed.

Lemma day_range_sorted n :
  forall start, wf_date start -> Sorted date_lt (day_range start n).
Proof.
  induction n as [| n IH]; intros start W; cbn [day_range]; constructor.
  - apply IH, next_day_wf, W.
  - destruct n; cbn [day_range]; constructor.
    unfold date_lt. rewrite date_ltb_ts by auto using next_day_wf.
    rewrite next_day_ts by assumption. apply Z.ltb_lt. lia.
Qed.

Lemma resample_D_keys df :
  map fst (resample_D_sum df) =
  match df with
  | [] => []
  | r :: t =>
      let first := min_ts (date r) (map date t) in
      let last := max_ts (date r) (map date t) in
      day_range first (Z.to_nat (ts_value last - ts_value first + 1))
  end.
Proof.
  destruct df as [| r t]; [reflexivity |].
  unfold resample_D_sum. rewrite map_map. cbn [fst]. apply map_id.
Qed.

(** The earliest and latest dates of a frame are the ends of its
    timestamps. *)
Lemma frame_bounds (r : Row Date) t lo hi :
  dates_valid (r :: t) ->
  In lo (map date (r :: t)) -> In hi (map date (r :: t)) ->
  (forall x, In x (r :: t) ->
             date_leb lo (date x) = true /\ date_leb (date x) hi = true) ->
  min_ts (date r) (map date t) = lo /\ max_ts (date r) (map date t) = hi.
Proof.
  intros V Hlo Hhi B. unfold dates_valid in V. rewrite Forall_forall in V.
  assert (W : forall d, In d (map date (r :: t)) -> wf_date d).
  { intros d Hd. apply in_map_iff in Hd. destruct Hd as [x [<- Hx]].
    apply valid_date_wf, V, Hx. }
  assert (B' : forall d, In d (map date (r :: t)) ->
                         ts_value lo <= ts_value d <= ts_value hi).
  { intros d Hd. pose proof (W d Hd) as Wd.
    apply in_map_iff in Hd. destruct Hd as [x [<- Hx]].
    destruct (B x Hx) as [B1 B2].
    rewrite date_leb_ts in B1, B2 by auto. apply Z.leb_le in B1, B2. lia. }
  cbn [map] in *.
  destruct (min_ts_spec (map date t) (date r)) as [I1 M1].
  destruct (max_ts_spec (map date t) (date r)) as [I2 M2].
  split; apply ts_value_inj; auto.
  - specialize (M1 lo Hlo). specialize (B' _ I1). lia.
  - specialize (M2 hi Hhi). specialize (B' _ I2). lia.
Qed.

Lemma day_bin_filter df b :
  dates_valid df -> wf_date b ->
  bin_sum (fun d => (ts_value b <=? ts_value d) && (ts_value d <? ts_value b + 1)) df
  = sum_on_day b df.
Proof.
  intros V W. unfold bin_sum, sum_on_day. do 2 f_equal.
  unfold dates_valid in V. rewrite Forall_forall in V.
  apply filter_ext_in. intros r Hr. pose proof (valid_date_wf _ (V r Hr)) as Wr.
  destruct (date_eqb (date r) b) eqn:E.
  - apply date_eqb_eq in E. rewrite E.
    apply andb_true_intro. split; [apply Z.leb_le | apply Z.ltb_lt]; lia.
  - apply andb_false_iff.
    destruct (Z.eq_dec (ts_value (date r)) (ts_value b)) as [Q | N].
    + apply ts_value_inj in Q; auto. apply date_eqb_eq in Q. congruence.
    + destruct (Z.lt_ge_cases (ts_value (date r)) (ts_value b));
        [left; apply Z.leb_gt | right; apply Z.ltb_ge]; lia.
Qed.

Lemma select_category_valid df c :
  dates_valid df -> dates_valid (select_category df c).
Proof.
  unfold dates_valid, select_category. rewrite loc_map_filter, !Forall_forall.
  intros V r Hr. apply filter_In in Hr. apply V, Hr.
Qed.

Open Scope Q_scope.



Close Scope Q_scope.

Lemma month_end_of_month_index b :
  (1 <= month b <= 12)%Z -> month_end_of_index (month_index b) = month_end b.
Proof.
  intros H. unfold month_end_of_index, month_index, month_end.
  replace ((year b * 12 + (month b - 1)) / 12)%Z with (year b)
    by (Z.div_mod_to_equations; lia).
  replace ((year b * 12 + (month b - 1)) mod 12 + 1)%Z with (month b)
    by (Z.div_mod_to_equations; lia).
  reflexivity.
Qed.

Lemma month_end_of_index_lt i j :
  (i < j)%Z -> date_lt (month_end_of_index i) (month_end_of_index j).
Proof.
  intros H. unfold date_lt, date_ltb, date_compare, month_end_of_index;
    cbn [year month day].
  destruct (Z.compare_spec (i / 12) (j / 12)); [| reflexivity |].
  - destruct (Z.compare_spec (i mod 12 + 1) (j mod 12 + 1)); [| reflexivity |];
      exfalso; Z.div_mod_to_equations; lia.
  - exfalso; Z.div_mod_to_equations; lia.
Qed.

Lemma month_end_leb_index a b :
  (1 <= month a <= 12)%Z -> (1 <= month b <= 12)%Z ->
  date_leb (month_end a) (month_end b) = true <->
  (month_index a <= month_index b)%Z.
Proof.
  intros Ha Hb. unfold date_leb, date_compare, month_end, month_index;
    cbn [year month day].
  destruct (Z.compare_spec (year a) (year b)) as [E | L | L].
  - rewrite E. destruct (Z.compare_spec (month a) (month b)) as [E' | L' | L'].
    + rewrite E', Z.compare_refl. split; [lia | reflexivity].
    + split; [lia | reflexivity].
    + split; [discriminate | lia].
  - split; [lia | reflexivity].
  - split; [discriminate | lia].
Qed.

Lemma month_range_sorted (f : nat -> Z) n :
  forall a, (forall k, f (S k) = f k + 1)%Z ->
            Sorted date_lt (map (fun k => month_end_of_index (f k)) (seq a n)).
Proof.
  induction n as [| n IH]; intros a F; cbn [seq map]; constructor.
  - apply IH, F.
  - destruct n; cbn [seq map]; constructor.
    apply month_end_of_index_lt. rewrite F. lia.
Qed.

Lemma same_month_index d i :
  (1 <= month d <= 12)%Z ->
  same_month d (month_end_of_index i) = (month_index d =? i)%Z.
Proof.
  intros H. unfold same_month, month_end_of_index, month_index; cbn [year month].
  destruct (Z.eqb_spec (year d * 12 + (month d - 1)) i) as [E | N].
  - apply andb_true_intro. split; apply Z.eqb_eq; Z.div_mod_to_equations; lia.
  - apply andb_false_iff.
    destruct (Z.eqb_spec (year d) (i / 12)); [right | left; reflexivity].
    apply Z.eqb_neq. Z.div_mod_to_equations. lia.
Qed.

Lemma month_bin_filter df i :
  dates_valid df ->
  bin_sum (fun d => (ts_value (month_end_of_index (i - 1)) <? ts_value d) &&
                    (ts_value d <=? ts_value (month_end_of_index i))) df
  = sum_in_month (month_end_of_index i) df.
Proof.
  intros V. unfold bin_sum, sum_in_month. do 2 f_equal.
  unfold dates_valid in V. rewrite Forall_forall in V.
  apply filter_ext_in. intros r Hr. pose proof (valid_date_wf _ (V r Hr)) as Wr.
  rewrite month_bin by assumption. symmetry. apply same_month_index, Wr.
Qed.

Lemma resample_M_keys df :
  map fst (resample_M_sum df) =
  match df with
  | [] => []
  | r :: t =>
      let first := min_ts (date r) (map date t) in
      let last := max_ts (date r) (map date t) in
      map (fun k => month_end_of_index (month_index first + Z.of_nat k))
          (seq 0 (Z.to_nat (month_index last - month_index first + 1)))
  end.
Proof.
  destruct df as [| r t]; [reflexivity |].
  unfold resample_M_sum. rewrite !map_map. reflexivity.
Qed.

Open Scope Q_scope.




(** C5 on the code: an income on 01-01-2024 and an expense on
    02-01-2024, viewed by day.  Each series lacks the other's date; the
    combined frame holds [NaN], not 0, on the absent side, and [NaN] as
    net. *)
Theorem combined_df_absent_side_nan :
  let lines := add_entry (add_entry [] "01-01-2024" 100 "Income" "Salary")
                         "02-01-2024" 40 "Expense" "Rent" in
  exists df,
    get_transactions (Some lines) "01-01-2024" "31-01-2024" = Return df /\
    resample_D_sum (select_category df "Income")
      = [(mkDate 2024 1 1, 0 + 100)] /\
    resample_D_sum (select_category df "Expense")
      = [(mkDate 2024 1 2, 0 + 40)] /\
    create_visualizations df (DailyMonthlyAnalysis Daily) =
      Return (CombinedData
                [ mkCombined (mkDate 2024 1 1) (Some (0 + 100)) None None;
                  mkCombined (mkDate 2024 1 2) None (Some (0 + 40)) None ]).
Proof.
  eexists. repeat split.
Qed.

Close Scope Q_scope.

(* ================================================================= *)
(** ** Appending and reading back *)

Lemma to_datetime_app df1 :
  forall df2 rows1 rows2,
    to_datetime df1 = Return rows1 -> to_datetime df2 = Return rows2 ->
    to_datetime (df1 ++ df2) = Return (rows1 ++ rows2).
Proof.
  induction df1 as [| r t IH]; intros df2 rows1 rows2 H1 H2; cbn [to_datetime app] in *.
  - injection H1 as <-. exact H2.
  - destruct (strptime (date r)) as [d |]; [| discriminate].
    destruct (in_ns_bounds d); [| discriminate].
    destruct (to_datetime t) as [t' | x] eqn:E; cbn [bind] in H1; [| discriminate].
    injection H1 as <-. rewrite (IH df2 t' rows2 eq_refl H2). reflexivity.
Qed.

Lemma ledger_of_add_entry lines df d amount category description :
  ledger_of lines = Return df ->
  valid_date d -> in_ns_bounds d = true ->
  ledger_of (add_entry lines (strftime d) amount category description)
  = Return (df ++ [row_of d amount category description]).
Proof.
  intros Hl V B. unfold ledger_of, add_entry in *. rewrite map_app.
  apply to_datetime_app; [assumption |].
  cbn [map to_datetime read_line date l_date].
  rewrite (strptime_strftime d V), B. reflexivity.
Qed.

(** X1. A transaction added through the form is read back: when the
    ledger loads as [df] and the picked date is a valid one within the
    range of timestamps, [main] appends one line, and the ledger then
    loads with one more row: its dates are those of [df] followed by
    the picked date. *)
Theorem main_add_then_load fs lines df d amount category description :
  initialize_csv fs = Some lines ->
  ledger_of lines = Return df ->
  valid_date d -> in_ns_bounds d = true ->
  exists lines' df',
    main fs (AddTransaction d amount category description true)
      = Return (Some lines', EntryAdded) /\
    lines' = lines ++ [mkLine (strftime d) amount category description] /\
    ledger_of lines' = Return df' /\
    map date df' = map date df ++ [d].
Proof.
  intros Hi Hl V B. eexists. eexists. split; [| split; [| split]].
  - unfold main. rewrite Hi. reflexivity.
  - reflexivity.
  - apply ledger_of_add_entry; eassumption.
  - rewrite map_app. reflexivity.
Qed.

Lemma main_add_then_load_witness :
  exists lines' df',
    main None (AddTransaction (mkDate 2024 2 29) 12 "Income" "" true)
      = Return (Some lines', EntryAdded) /\
    ledger_of lines' = Return df' /\
    map date df' = [mkDate 2024 2 29].
Proof.
  destruct (main_add_then_load None [] [] (mkDate 2024 2 29) 12 "Income" ""
              eq_refl eq_refl eq_refl eq_refl) as (lines' & df' & E & _ & L & M).
  exists lines', df'. auto.
Defined.

(* ================================================================= *)
(** ** Outcomes of the range query *)

Lemma filter_filter_implies {A : Type} (f g : A -> bool) (l : list A) :
  (forall x, In x l -> f x = true -> g x = true) ->
  filter f (filter g l) = filter f l.
Proof.
  induction l as [| x t IH]; intros H; cbn [filter]; [reflexivity |].
  assert (IH' : filter f (filter g t) = filter f t)
    by (apply IH; intros y Hy; apply H; right; assumption).
  destruct (f x) eqn:Ef.
  - rewrite (H x (or_introl eq_refl) Ef). cbn [filter]. rewrite Ef, IH'. reflexivity.
  - destruct (g x); cbn [filter]; rewrite ?Ef; exact IH'.
Qed.

(** X2. Widening the date range never loses a transaction: with
    [start' <= start] and [end <= end'], every row the narrow query
    returns is returned by the wide one, and the narrow result is the
    wide result filtered by the narrow range. *)
Theorem get_transactions_widen lines df a b a' b' s e s' e' :
  ledger_of lines = Return df ->
  strptime a = Some s -> strptime b = Some e ->
  strptime a' = Some s' -> strptime b' = Some e' ->
  date_leb s' s = true -> date_leb e e' = true ->
  exists narrow wide,
    get_transactions (Some lines) a b = Return narrow /\
    get_transactions (Some lines) a' b' = Return wide /\
    incl narrow wide /\
    narrow = filter (fun r => in_date_range s e (date r)) wide.
Proof.
  intros Hdf Ha Hb Ha' Hb' Ls Le.
  exists (filter (fun r => in_date_range s e (date r)) df),
         (filter (fun r => in_date_range s' e' (date r)) df).
  assert (I : forall r, in_date_range s e (date r) = true ->
                        in_date_range s' e' (date r) = true).
  { intros r H. unfold in_date_range in *. apply andb_prop in H. destruct H as [H1 H2].
    apply andb_true_intro. split; eapply date_leb_trans; eassumption. }
  split; [eapply get_transactions_filter; eassumption |].
  split; [eapply get_transactions_filter; eassumption |].
  split.
  - intros r Hr. apply filter_In in Hr. destruct Hr as [Hr P].
    apply filter_In. auto.
  - symmetry. apply filter_filter_implies. intros r _. apply I.
Qed.

Lemma get_transactions_widen_witness :
  exists narrow wide,
    get_transactions (Some ex_lines) "16-01-2024" "10-03-2024" = Return narrow /\
    get_transactions (Some ex_lines) "01-01-2024" "31-12-2024" = Return wide /\
    incl narrow wide.
Proof.
  destruct (get_transactions_widen ex_lines ex_df
              "16-01-2024" "10-03-2024" "01-01-2024" "31-12-2024"
              (mkDate 2024 1 16) (mkDate 2024 3 10)
              (mkDate 2024 1 1) (mkDate 2024 12 31)
              eq_refl eq_refl eq_refl eq_refl eq_refl eq_refl eq_refl)
    as (narrow & wide & E1 & E2 & I & _).
  exists narrow, wide. auto.
Defined.

Lemma to_datetime_outcome lines :
  (Forall line_loads lines /\
   exists rows, to_datetime (map read_line lines) = Return rows) \/
  (~ Forall line_loads lines /\
   (to_datetime (map read_line lines) = Raise ValueError \/
    to_datetime (map read_line lines) = Raise OutOfBoundsDatetime)).
Proof.
  induction lines as [| l t IH]; cbn [map to_datetime].
  - left. split; [constructor | eauto].
  - cbn [read_line date].
    destruct (strptime (l_date l)) as [d |] eqn:E.
    + destruct (in_ns_bounds d) eqn:B.
      * destruct IH as [[F [rows R]] | [N [R | R]]]; rewrite R; cbn [bind].
        -- left. split; [| eauto]. constructor; [| assumption].
           exists d. auto.
        -- right. split; [| auto]. intros F. apply N. inversion F; assumption.
        -- right. split; [| auto]. intros F. apply N. inversion F; assumption.
      * right. split; [| auto]. intros F. inversion F as [| ? ? P ?]; subst.
        destruct P as [d' [E' B']]. congruence.
    + right. split; [| auto]. intros F. inversion F as [| ? ? P ?]; subst.
      destruct P as [d' [E' _]]. congruence.
Qed.



(* ================================================================= *)
(** ** The groups of the breakdown *)

Open Scope Q_scope.

Lemma string_compare_refl k : String.compare k k = Eq.
Proof.
  induction k as [| c k IH]; cbn; [reflexivity |].
  unfold Ascii.compare. rewrite N.compare_refl. exact IH.
Qed.

Lemma string_lt_trans a :
  forall b c, string_lt a b -> string_lt b c -> string_lt a c.
Proof.
  unfold string_lt.
  induction a as [| x a IH]; intros [| y b] [| z c]; cbn; try discriminate; auto.
  unfold Ascii.compare.
  destruct (N.compare_spec (N_of_ascii x) (N_of_ascii y)) as [E1 | L1 | L1];
    try discriminate;
    destruct (N.compare_spec (N_of_ascii y) (N_of_ascii z)) as [E2 | L2 | L2];
    try discriminate; intros H1 H2.
  - rewrite E1, E2, N.compare_refl. eapply IH; eassumption.
  - rewrite E1. apply N.compare_lt_iff in L2. rewrite L2. reflexivity.
  - rewrite <- E2. apply N.compare_lt_iff in L1. rewrite L1. reflexivity.
  - assert (L : (N_of_ascii x < N_of_ascii z)%N) by lia.
    apply N.compare_lt_iff in L. rewrite L. reflexivity.
Qed.

Lemma string_lt_neq a b : string_lt a b -> a <> b.
Proof.
  unfold string_lt. intros H ->. rewrite string_compare_refl in H. discriminate.
Qed.

Lemma string_gt_lt a b : String.compare a b = Gt -> string_lt b a.
Proof.
  unfold string_lt. intros H. rewrite String.compare_antisym, H. reflexivity.
Qed.

Lemma group_add_keys k v g k' :
  In k' (map fst (group_add k v g)) <-> k' = k \/ In k' (map fst g).
Proof.
  induction g as [| [k0 s] t IH]; cbn [group_add map fst In].
  - intuition.
  - destruct (String.compare k k0) eqn:E; cbn [map fst In].
    + apply String.compare_eq_iff in E. subst k0. intuition.
    + intuition.
    + rewrite IH. intuition.
Qed.

Lemma group_add_sorted k v g :
  StronglySorted string_lt (map fst g) ->
  StronglySorted string_lt (map fst (group_add k v g)).
Proof.
  induction g as [| [k0 s] t IH]; cbn [group_add map fst]; intros S.
  - repeat constructor.
  - inversion S as [| ? ? St Ft]; subst.
    destruct (String.compare k k0) eqn:E; cbn [map fst].
    + assumption.
    + constructor; [assumption |]. constructor; [exact E |].
      rewrite Forall_forall in *. intros x Hx.
      eapply string_lt_trans; [exact E | apply Ft, Hx].
    + constructor; [apply IH, St |].
      rewrite Forall_forall in *. intros x Hx.
      apply group_add_keys in Hx. destruct Hx as [-> | Hx];
        [apply string_gt_lt, E | apply Ft, Hx].
Qed.

Lemma group_add_values k v g k' v' :
  StronglySorted string_lt (map fst g) ->
  In (k', v') (group_add k v g) ->
  (k' <> k /\ In (k', v') g) \/
  (k' = k /\ ((exists s, In (k, s) g /\ v' = s + v) \/
              (~ In k (map fst g) /\ v' = v))).
Proof.
  induction g as [| [k0 s] t IH]; cbn [group_add map fst]; intros S H.
  - destruct H as [[= <- <-] | []]. right. split; [reflexivity |]. right.
    split; [intros [] | reflexivity].
  - inversion S as [| ? ? St Ft]; subst. rewrite Forall_forall in Ft.
    assert (In_keys : forall x y, In (x, y) t -> In x (map fst t)).
    { intros x y Hx. apply in_map_iff. exists (x, y). auto. }
    destruct (String.compare k k0) eqn:E.
    + apply String.compare_eq_iff in E. subst k0.
      destruct H as [[= <- <-] | H].
      * right. split; [reflexivity |]. left. exists s. split; [left |]; reflexivity.
      * left. split; [| right; assumption].
        apply not_eq_sym, string_lt_neq, Ft. eapply In_keys, H.
    + destruct H as [[= <- <-] | H].
      * right. split; [reflexivity |]. right. split; [| reflexivity].
        cbn [In]. intros [-> | Hk].
        -- rewrite string_compare_refl in E. discriminate.
        -- apply (string_lt_neq k k); [| reflexivity].
           eapply string_lt_trans; [exact E | apply Ft, Hk].
      * left. split; [| assumption].
        destruct H as [[= <- <-] | H].
        -- apply not_eq_sym, string_lt_neq, E.
        -- apply not_eq_sym, string_lt_neq.
           eapply string_lt_trans; [exact E | apply Ft]. eapply In_keys, H.
    + destruct H as [[= <- <-] | H].
      * left. split; [| left; reflexivity]. apply string_lt_neq, string_gt_lt, E.
      * destruct (IH St H) as [[N I] | [-> [[s0 [I ->]] | [N ->]]]].
        -- left. split; [assumption | right; assumption].
        -- right. split; [reflexivity |]. left. exists s0.
           split; [right; assumption | reflexivity].
        -- right. split; [reflexivity |]. right. split; [| reflexivity].
           cbn [In]. intros [-> | Hk]; [| contradiction].
           rewrite string_compare_refl in E. discriminate.
Qed.

Lemma sum_described_snoc {D : Type} k (rows : DataFrame D) r :
  sum_described k (rows ++ [r])
  == sum_described k rows + (if described k r then amount r else 0).
Proof.
  unfold sum_described. rewrite filter_app, map_app, series_sum_app.
  cbn [filter]. destruct (described k r); cbn [map].
  - rewrite series_sum_cons. unfold series_sum at 2. cbn [fold_left]. ring.
  - reflexivity.
Qed.

Lemma described_iff {D : Type} k (r : Row D) :
  described k r = true <-> description r = Some k.
Proof.
  unfold described. destruct (description r) as [x |].
  - rewrite String.eqb_eq. split; congruence.
  - split; discriminate.
Qed.

Lemma sum_described_absent {D : Type} k (rows : DataFrame D) :
  (forall r, In r rows -> description r <> Some k) -> sum_described k rows = 0.
Proof.
  intros H. unfold sum_described. rewrite filter_nothing; [reflexivity |].
  intros r Hr. destruct (described k r) eqn:E; [| reflexivity].
  apply described_iff in E. exfalso. exact (H r Hr E).
Qed.

Lemma groupby_invariant {D : Type} (df : DataFrame D) :
  forall (g : list (string * Q)) (rows : DataFrame D),
    StronglySorted string_lt (map fst g) ->
    (forall k, In k (map fst g) <-> exists r, In r rows /\ description r = Some k) ->
    (forall k v, In (k, v) g -> v == sum_described k rows) ->
    let g' := fold_left (fun g r =>
                           match description r with
                           | None => g
                           | Some k => group_add k (amount r) g
                           end) df g in
    StronglySorted string_lt (map fst g') /\
    (forall k, In k (map fst g') <->
               exists r, In r (rows ++ df) /\ description r = Some k) /\
    (forall k v, In (k, v) g' -> v == sum_described k (rows ++ df)).
Proof.
  induction df as [| r t IH]; intros g rows S K V; cbn [fold_left].
  - rewrite app_nil_r. auto.
  - replace (rows ++ r :: t) with ((rows ++ [r]) ++ t)
      by (rewrite <- app_assoc; reflexivity).
    apply IH.
    + destruct (description r); [apply group_add_sorted |]; assumption.
    + intros k. destruct (description r) as [k0 |] eqn:E.
      * rewrite group_add_keys, K. split.
        -- intros [-> | [x [Hx Dx]]].
           ++ exists r. split; [apply in_or_app; right; left; reflexivity | assumption].
           ++ exists x. split; [apply in_or_app; left |]; assumption.
        -- intros [x [Hx Dx]]. apply in_app_or in Hx.
           destruct Hx as [Hx | [<- | []]]; [right; eauto | left; congruence].
      * rewrite K. split.
        -- intros [x [Hx Dx]]. exists x. split; [apply in_or_app; left |]; assumption.
        -- intros [x [Hx Dx]]. apply in_app_or in Hx.
           destruct Hx as [Hx | [<- | []]]; [eauto | congruence].
    + intros k v H. rewrite sum_described_snoc.
      destruct (description r) as [k0 |] eqn:E.
      * apply group_add_values in H; [| assumption].
        destruct H as [[N I] | [-> [[s [I ->]] | [N ->]]]].
        -- rewrite (V k v I).
           replace (described k r) with false; [ring |].
           symmetry. destruct (described k r) eqn:Dk; [| reflexivity].
           apply described_iff in Dk. congruence.
        -- rewrite (V k0 s I).
           replace (described k0 r) with true
             by (symmetry; apply described_iff; assumption).
           reflexivity.
        -- replace (described k0 r) with true
             by (symmetry; apply described_iff; assumption).
           rewrite sum_described_absent; [ring |].
           intros x Hx Dx. apply N, K. eauto.
      * rewrite (V k v H).
        replace (described k r) with false; [ring |].
        symmetry. destruct (described k r) eqn:Dk; [| reflexivity].
        apply described_iff in Dk. congruence.
Qed.

(** X4. The breakdown by description is right group by group: its keys
    come in strictly ascending order, so none twice; they are exactly
    the descriptions present in the frame; and each key holds the sum
    of [amount] over the rows with that description. *)
Theorem groupby_description_sum_groups {D : Type} (df : DataFrame D) :
  let g := groupby_description_sum df in
  StronglySorted string_lt (map fst g) /\
  (forall k, In k (map fst g) <-> exists r, In r df /\ description r = Some k) /\
  (forall k v, In (k, v) g -> v == sum_described k df).
Proof.
  unfold groupby_description_sum.
  apply (groupby_invariant df [] []).
  - constructor.
  - intros k. cbn. split; [contradiction | intros [r [[] _]]].
  - intros k v [].
Qed.

Lemma select_category_In {D : Type} (df : DataFrame D) c r :
  In r (select_category df c) <-> In r df /\ category_eq c r = true.
Proof.
  unfold select_category. rewrite loc_map_filter. apply filter_In.
Qed.

Lemma filter_everything {A : Type} (f : A -> bool) (l : list A) :
  (forall x, In x l -> f x = true) -> filter f l = l.
Proof.
  induction l as [| x t IH]; cbn [filter]; intros H; [reflexivity |].
  rewrite (H x) by (left; reflexivity). f_equal. apply IH.
  intros y Hy. apply H. right. assumption.
Qed.



Close Scope Q_scope.

(* ================================================================= *)
(** ** The ends of a frame *)

Open Scope Q_scope.

Lemma series_sum_nil : series_sum [] = 0.
Proof. reflexivity. Qed.

Lemma frame_ts_bounds (r : Row Date) t x :
  In x (r :: t) ->
  (ts_value (min_ts (date r) (map date t)) <= ts_value (date x)
   <= ts_value (max_ts (date r) (map date t)))%Z.
Proof.
  intros Hx.
  destruct (min_ts_spec (map date t) (date r)) as [_ M1].
  destruct (max_ts_spec (map date t) (date r)) as [_ M2].
  assert (I : In (date x) (date r :: map date t)).
  { change (date r :: map date t) with (map date (r :: t)). apply in_map, Hx. }
  split; [apply M1 | apply M2]; exact I.
Qed.

Lemma frame_min_max_wf (r : Row Date) t :
  dates_valid (r :: t) ->
  wf_date (min_ts (date r) (map date t)) /\ wf_date (max_ts (date r) (map date t)).
Proof.
  intros V. unfold dates_valid in V. rewrite Forall_forall in V.
  destruct (min_ts_spec (map date t) (date r)) as [I1 _].
  destruct (max_ts_spec (map date t) (date r)) as [I2 _].
  change (date r :: map date t) with (map date (r :: t)) in I1, I2.
  apply in_map_iff in I1, I2.
  destruct I1 as [x [<- Hx]], I2 as [y [<- Hy]].
  split; apply valid_date_wf, V; assumption.
Qed.

Close Scope Q_scope.

(* ================================================================= *)
(** ** The combined frame *)

Open Scope Q_scope.

Lemma zip3_map idx (f g : Date -> option Q) :
  zip3 idx (map f idx) (map g idx) =
  map (fun d => mkCombined d (f d) (g d) (nan_sub (f d) (g d))) idx.
Proof.
  induction idx as [| d t IH]; cbn [zip3 map]; [reflexivity |].
  rewrite IH. reflexivity.
Qed.

Lemma series_get_In s :
  distinct_ts s -> forall p, In p s -> series_get s (fst p) = Some (snd p).
Proof.
  unfold distinct_ts, ts_keys.
  induction s as [| [k v] t IH]; intros N p H; [contradiction |].
  cbn [map fst] in N. inversion N as [| ? ? Nk Nt]; subst.
  cbn [series_get]. destruct H as [<- | H].
  - cbn [fst snd]. rewrite Z.eqb_refl. reflexivity.
  - destruct (ts_value k =? ts_value (fst p))%Z eqn:E.
    + apply Z.eqb_eq in E. exfalso. apply Nk. rewrite E.
      apply (in_map (fun q => ts_value (fst q))), H.
    + apply IH; assumption.
Qed.

Lemma series_get_None s d :
  series_get s d = None <-> ~ In (ts_value d) (ts_keys s).
Proof.
  unfold ts_keys. induction s as [| [k v] t IH]; cbn [series_get map fst In].
  - tauto.
  - destruct (ts_value k =? ts_value d)%Z eqn:E.
    + apply Z.eqb_eq in E. split; [discriminate | intros H; exfalso; auto].
    + apply Z.eqb_neq in E. rewrite IH. tauto.
Qed.

Lemma nan_sub_None a b : nan_sub a b = None <-> a = None \/ b = None.
Proof.
  destruct a, b; cbn; split; try tauto; try discriminate;
    intros [H | H]; discriminate.
Qed.

Lemma insert_ts_keys d l z :
  In z (map ts_value (insert_ts d l)) <-> z = ts_value d \/ In z (map ts_value l).
Proof.
  induction l as [| x t IH]; cbn [insert_ts map In].
  - intuition.
  - destruct (ts_value d <? ts_value x)%Z; cbn [map In]; [intuition |].
    destruct (ts_value d =? ts_value x)%Z eqn:E; cbn [map In].
    + apply Z.eqb_eq in E. rewrite E. intuition.
    + rewrite IH. intuition.
Qed.

Lemma insert_ts_sorted d l :
  StronglySorted Z.lt (map ts_value l) ->
  StronglySorted Z.lt (map ts_value (insert_ts d l)).
Proof.
  induction l as [| x t IH]; cbn [insert_ts map]; intros S.
  - repeat constructor.
  - inversion S as [| ? ? St Ft]; subst. rewrite Forall_forall in Ft.
    destruct (ts_value d <? ts_value x)%Z eqn:L; cbn [map].
    + apply Z.ltb_lt in L. constructor; [assumption |].
      constructor; [assumption |]. rewrite Forall_forall. intros z Hz.
      specialize (Ft z Hz). lia.
    + apply Z.ltb_ge in L.
      destruct (ts_value d =? ts_value x)%Z eqn:E; cbn [map]; [assumption |].
      apply Z.eqb_neq in E. constructor; [apply IH, St |].
      rewrite Forall_forall. intros z Hz. apply insert_ts_keys in Hz.
      destruct Hz as [-> | Hz]; [lia | apply Ft, Hz].
Qed.

Lemma index_union_fold l :
  forall acc,
    StronglySorted Z.lt (map ts_value acc) ->
    let u := fold_left (fun acc d => insert_ts d acc) l acc in
    StronglySorted Z.lt (map ts_value u) /\
    (forall z, In z (map ts_value u) <->
               In z (map ts_value acc) \/ In z (map ts_value l)).
Proof.
  induction l as [| d t IH]; intros acc S; cbn [fold_left map In].
  - split; [assumption | tauto].
  - destruct (IH (insert_ts d acc) (insert_ts_sorted d acc S)) as [S' K].
    split; [exact S' |]. intros z. rewrite K, insert_ts_keys.
    intuition congruence.
Qed.



Lemma combined_df_income_only s :
  s <> [] -> distinct_ts s ->
  combined_df s [] =
  Return (map (fun p => mkCombined (fst p) (Some (snd p)) (Some 0)
                                   (Some (snd p - 0))) s).
Proof.
  intros Hs N. destruct s as [| p t]; [contradiction |].
  unfold combined_df, combined_frame. cbn [empty negb bind reindex].
  rewrite !zip3_map, map_map. f_equal. apply map_ext_in. intros q Hq.
  rewrite (series_get_In _ N q Hq). reflexivity.
Qed.

Lemma combined_df_expense_only s :
  s <> [] -> distinct_ts s ->
  combined_df [] s =
  Return (map (fun p => mkCombined (fst p) (Some 0) (Some (snd p))
                                   (Some (0 - snd p))) s).
Proof.
  intros Hs N. destruct s as [| p t]; [contradiction |].
  unfold combined_df, combined_frame. cbn [empty negb bind reindex].
  rewrite !zip3_map, map_map. f_equal. apply map_ext_in. intros q Hq.
  rewrite (series_get_In _ N q Hq). reflexivity.
Qed.

Close Scope Q_scope.

(* ================================================================= *)
(** ** The views *)

Open Scope Q_scope.

Lemma frame_first_le_last (r : Row Date) t :
  (ts_value (min_ts (date r) (map date t))
   <= ts_value (max_ts (date r) (map date t)))%Z.
Proof.
  pose proof (frame_ts_bounds r t r (or_introl eq_refl)). lia.
Qed.

Lemma resample_sum_empty p sub :
  dates_valid sub -> empty (resample_sum p sub) = empty sub.
Proof.
  intros V. destruct sub as [| r t]; [destruct p; reflexivity |].
  destruct (frame_min_max_wf r t V) as [Wf Wl].
  pose proof (frame_first_le_last r t) as L.
  destruct p; cbn [resample_sum resample_D_sum resample_M_sum empty].
  - destruct (Z.to_nat (ts_value (max_ts (date r) (map date t)) -
                        ts_value (min_ts (date r) (map date t)) + 1)) eqn:E;
      [lia | reflexivity].
  - pose proof (month_index_mono _ _ Wf Wl L).
    destruct (Z.to_nat (month_index (max_ts (date r) (map date t)) -
                        month_index (min_ts (date r) (map date t)) + 1)) eqn:E;
      [lia | reflexivity].
Qed.

Lemma day_range_distinct n :
  forall start, wf_date start -> NoDup (map ts_value (day_range start n)).
Proof.
  induction n as [| n IH]; intros start W; cbn [day_range map]; constructor.
  - intros H. apply in_map_iff in H. destruct H as [d [E Hd]].
    apply day_range_ts in Hd; [| apply next_day_wf, W].
    rewrite next_day_ts in Hd by assumption. lia.
  - apply IH, next_day_wf, W.
Qed.

Lemma month_end_ts_lt i j :
  (i < j)%Z ->
  (ts_value (month_end_of_index i) < ts_value (month_end_of_index j))%Z.
Proof.
  intros H. apply Z.ltb_lt.
  rewrite <- date_ltb_ts by apply month_end_of_index_wf.
  apply month_end_of_index_lt, H.
Qed.

Lemma month_range_distinct i0 n :
  forall s,
    NoDup (map (fun k => ts_value (month_end_of_index (i0 + Z.of_nat k)))
               (seq s n)).
Proof.
  induction n as [| n IH]; intros s; cbn [seq map]; constructor.
  - intros H. apply in_map_iff in H. destruct H as [k [E Hk]].
    apply in_seq in Hk.
    pose proof (month_end_ts_lt (i0 + Z.of_nat s) (i0 + Z.of_nat k)). lia.
  - apply IH.
Qed.

Lemma resample_distinct_ts p sub :
  dates_valid sub -> distinct_ts (resample_sum p sub).
Proof.
  intros V. unfold distinct_ts, ts_keys.
  destruct sub as [| r t]; [destruct p; constructor |].
  destruct (frame_min_max_wf r t V) as [Wf Wl].
  destruct p; cbn [resample_sum resample_D_sum resample_M_sum];
    rewrite !map_map; cbn [fst].
  - rewrite <- (map_map (fun b => b) ts_value), map_id.
    apply day_range_distinct, Wf.
  - apply (month_range_distinct _ _ 0%nat).
Qed.

Lemma empty_false_iff {A : Type} (l : list A) : empty l = false <-> l <> [].
Proof. destruct l; cbn; split; congruence. Qed.



Lemma guarded_percent_returns (x y : Q) :
  exists q,
    (if Qgtb y 0 then q <- truediv x y ;; Return (q * 100) else Return 0)
    = Return q /\
    (0 < y -> q = x / y * 100) /\ (~ 0 < y -> q = 0).
Proof.
  unfold Qgtb, truediv. destruct (Qle_bool y 0) eqn:E; cbn [negb].
  - apply Qle_bool_iff in E. exists 0. split; [reflexivity |]. split; [| reflexivity].
    intros H. exfalso. apply (Qlt_irrefl 0). eapply Qlt_le_trans; eassumption.
  - assert (P : 0 < y).
    { apply Qnot_le_lt. intros H. apply Qle_bool_iff in H. congruence. }
    assert (Z : Qeq_bool y 0 = false).
    { destruct (Qeq_bool y 0) eqn:Z; [| reflexivity].
      apply Qeq_bool_iff in Z. rewrite Z in P. exfalso. exact (Qlt_irrefl 0 P). }
    rewrite Z. cbn [bind]. eexists. split; [reflexivity |].
    split; [reflexivity | intros H; contradiction].
Qed.

(** X8. A frame that is not empty and has no row of category "Income"
    and none of category "Expense" makes the daily and the monthly
    analysis raise [ValueError]: both columns handed to the frame
    constructor are then the scalar 0 and it has no index to put them
    on.  On the empty frame every view gives the warning instead. *)
Theorem daily_monthly_no_category_raises (df : DataFrame Date) p :
  (df <> [] ->
   select_category df "Income" = [] -> select_category df "Expense" = [] ->
   create_visualizations df (DailyMonthlyAnalysis p) = Raise ValueError) /\
  (forall viz_type, create_visualizations (@nil (Row Date)) viz_type
                    = Return Warning).
Proof.
  split; [| reflexivity].
  intros Hd Hi He. unfold create_visualizations.
  destruct df as [| r t]; [contradiction |]. cbn [empty].
  rewrite Hi, He. destruct p; reflexivity.
Qed.

Lemma daily_monthly_no_category_raises_witness :
  create_visualizations
    [mkRow (mkDate 2024 1 15) 10 (Some "Transfer"%string) None]
    (DailyMonthlyAnalysis Daily) = Raise ValueError.
Proof.
  apply (proj1 (daily_monthly_no_category_raises
                  [mkRow (mkDate 2024 1 15) 10 (Some "Transfer"%string) None]
                  Daily)).
  - discriminate.
  - reflexivity.
  - reflexivity.
Defined.

Close Scope Q_scope.

(* ================================================================= *)
(** ** Bounds on the figures *)

Open Scope Q_scope.

Lemma series_sum_nonneg l : Forall (fun x => 0 <= x) l -> 0 <= series_sum l.
Proof.
  induction l as [| x t IH]; intros H.
  - rewrite series_sum_nil. apply Qle_refl.
  - inversion H as [| ? ? Hx Ht]; subst. rewrite series_sum_cons.
    replace 0 with (0 + 0) by reflexivity. apply Qplus_le_compat; auto.
Qed.

Lemma total_nonneg {D : Type} (df : DataFrame D) c :
  amounts_nonneg df -> 0 <= total df c.
Proof.
  intros H. unfold total, select_category. rewrite loc_map_filter.
  apply series_sum_nonneg. unfold amounts_nonneg in H.
  rewrite Forall_forall in *. intros x Hx.
  apply in_map_iff in Hx. destruct Hx as [r [<- Hr]].
  apply filter_In in Hr. apply H, Hr.
Qed.



Close Scope Q_scope.

(* ================================================================= *)
(** ** Runs of [main] *)

Lemma get_transactions_empty_file a b s e :
  strptime a = Some s -> strptime b = Some e ->
  get_transactions (Some []) a b = Return [].
Proof.
  intros Ha Hb. unfold get_transactions, strptime_exn. cbn. rewrite Ha, Hb.
  reflexivity.
Qed.

(** X10. The first run.  With no file yet and valid dates picked,
    showing the transactions and opening the dashboard both leave the
    header-only file behind and report that no transaction was found;
    nothing is raised. *)
Theorem main_first_run s e viz_type :
  valid_date s -> valid_date e ->
  main None (ViewTransactions s e true viz_type) = Return (Some [], NoTransactions) /\
  main None (AnalyticsDashboard s e viz_type) = Return (Some [], NoTransactions).
Proof.
  intros Vs Ve. unfold main. cbn [initialize_csv read_csv].
  rewrite (get_transactions_empty_file _ _ s e)
    by (apply strptime_strftime; assumption).
  split; reflexivity.
Qed.

Lemma main_first_run_witness :
  main None (AnalyticsDashboard (mkDate 2024 1 1) (mkDate 2024 1 31) TimeSeries)
  = Return (Some [], NoTransactions).
Proof.
  apply (proj2 (main_first_run (mkDate 2024 1 1) (mkDate 2024 1 31) TimeSeries
                  eq_refl eq_refl)).
Defined.

(** X12. What is added shows up in the next query, last.  When the
    ledger loads as [df], a transaction added through the form with a
    valid date [d] within the range of timestamps, then a range query
    with picked dates [s <= d <= e], returns one row more than the rows
    of [df] in that range: its dates are theirs followed by [d]. *)
Theorem main_add_then_query fs lines df d amount category description s e :
  initialize_csv fs = Some lines ->
  ledger_of lines = Return df ->
  valid_date d -> in_ns_bounds d = true ->
  valid_date s -> valid_date e ->
  date_leb s d = true -> date_leb d e = true ->
  exists fs' out,
    main fs (AddTransaction d amount category description true)
      = Return (fs', EntryAdded) /\
    get_transactions fs' (strftime s) (strftime e) = Return out /\
    map date out
    = map date (filter (fun r => in_date_range s e (date r)) df) ++ [d].
Proof.
  intros Hi Hl Vd Bd Vs Ve L1 L2. eexists. eexists. split; [| split].
  - unfold main. rewrite Hi. reflexivity.
  - apply (get_transactions_filter _ _ _ _ s e
             (ledger_of_add_entry lines df d amount category description Hl Vd Bd)
             (strptime_strftime s Vs) (strptime_strftime e Ve)).
  - rewrite filter_app, map_app. cbn [filter row_of date]. unfold in_date_range at 2.
    rewrite L1, L2. reflexivity.
Qed.

Lemma main_add_then_query_witness :
  exists fs' out,
    main (Some ex_lines) (AddTransaction (mkDate 2024 2 29) 12 "Income" "Gift" true)
      = Return (fs', EntryAdded) /\
    get_transactions fs' (strftime (mkDate 2024 2 1)) (strftime (mkDate 2024 2 29))
      = Return out /\
    map date out = [mkDate 2024 2 29].
Proof.
  destruct (main_add_then_query (Some ex_lines) ex_lines ex_df
              (mkDate 2024 2 29) 12 "Income" "Gift"
              (mkDate 2024 2 1) (mkDate 2024 2 29)
              eq_refl eq_refl eq_refl eq_refl eq_refl eq_refl eq_refl eq_refl)
    as (fs' & out & E & G & M).
  exists fs', out. auto.
Defined.

Open Scope Q_scope.



Close Scope Q_scope.
